(** * Sea-Guardian drift simulator (app.py): a shallow embedding

    The Lagrangian particle engine of [app.py] and the field sampling it
    rests on, written as Rocq functions that follow the Python text line by
    line.

    Conventions of the embedding:
    - a Python [float] (and a numpy float64 cell) is a real number of [R]:
      arithmetic is exact, there is no rounding, no [nan] and no infinity;
    - a Python [int] is a [Z];
    - a one-dimensional numpy array is a [list R], a two-dimensional one a
      list of rows;
    - a Python exception is a value [Raise e] of the type [except];
      [try ... except Exception: pass] is a match on it;
    - numpy's generator is a stream of standard normal deviates with a
      cursor: [rng.normal(loc, scale, size=n)] returns
      [loc + scale * z] for the next [n] deviates [z] and advances the
      cursor by [n]. Which stream a seed selects is numpy's business and is
      a parameter of the development ([default_rng]);
    - the wall clock read by [seed_rng] is an explicit argument [now]. *)

From Stdlib Require Import String.
From Stdlib Require Import Reals Lra Lia ZArith List Bool.
Import ListNotations.
Open Scope R_scope.

(** ** Exceptions *)

Inductive PyError : Set :=
| ValueError
| TypeError
| IndexError
| KeyError.

Inductive except (A : Type) : Type :=
| Ok (a : A)
| Raise (e : PyError).

Arguments Ok {A} a.
Arguments Raise {A} e.

Definition bind {A B : Type} (m : except A) (k : A -> except B) : except B :=
  match m with
  | Ok a => k a
  | Raise e => Raise e
  end.

Notation "x <- m ;; k" := (bind m (fun x => k))
  (at level 61, m at next level, right associativity).
Notation "' p <- m ;; k" := (bind m (fun p => k))
  (at level 61, p pattern, m at next level, right associativity).

Definition succeeds {A : Type} (m : except A) : Prop := exists a, m = Ok a.

(** ** Configuration constants (app.py, lines 44-55) *)

Definition DEFAULT_LAT : R := 23.600.
Definition DEFAULT_LON : R := 58.500.
Definition DEFAULT_HOURS : R := 48.
Definition DEFAULT_PARTICLES : Z := 8000.

Record Domain : Set := {
  lat_min : R;
  lat_max : R;
  lon_min : R;
  lon_max : R
}.

Definition DOMAIN : Domain :=
  {| lat_min := 22.5; lat_max := 26.0; lon_min := 56.5; lon_max := 60.5 |}.

Definition DT_SECONDS : R := 600.0.
Definition SAMPLE_EVERY_STEPS : nat := 3.

(** ** Helpers *)

(** [clamp(v, a, b) = max(a, min(b, v))]; the source only calls it on
    integers. *)
Definition clamp (v a b : Z) : Z := Z.max a (Z.min b v).

(** [int(x)] on a float truncates toward zero. *)
Definition py_int (x : R) : Z :=
  if Rle_dec 0 x then Zfloor x else Zceil x.

(** [np.floor(x)], still a float. *)
Definition np_floor (x : R) : R := IZR (Zfloor x).

(** [math.radians]. *)
Definition radians (deg : R) : R := deg * PI / 180.

(** [np.clip(a, lo, hi)] is [minimum(maximum(a, lo), hi)], cell by cell. *)
Definition clip1 (lo hi v : R) : R := Rmin (Rmax v lo) hi.
Definition np_clip (a : list R) (lo hi : R) : list R := map (clip1 lo hi) a.

(** Cell-wise arithmetic of equally long arrays and scalar broadcasting. *)
Fixpoint map2 {A B C : Type} (f : A -> B -> C) (xs : list A) (ys : list B)
  : list C :=
  match xs, ys with
  | x :: xs', y :: ys' => f x y :: map2 f xs' ys'
  | _, _ => []
  end.

Definition vadd (a b : list R) : list R := map2 Rplus a b.
Definition vscale (a : list R) (c : R) : list R := map (fun x => x * c) a.
Definition vdiv (a : list R) (c : R) : list R := map (fun x => x / c) a.

(** [np.mean]: the sum over the size (numpy answers [nan] on an empty
    array; no statement below depends on the value there). *)
Definition np_sum (a : list R) : R := fold_right Rplus 0 a.
Definition np_mean (a : list R) : R := np_sum a / INR (length a).

(** Indexing a sequence with a Python integer: negative indices count from
    the end, anything out of range raises [IndexError]. *)
Definition getitem {A : Type} (l : list A) (i : Z) : except A :=
  let n := Z.of_nat (length l) in
  let j := if (i <? 0)%Z then (i + n)%Z else i in
  if ((0 <=? j) && (j <? n))%Z
  then match nth_error l (Z.to_nat j) with
       | Some a => Ok a
       | None => Raise IndexError
       end
  else Raise IndexError.

(** ** The random generator (seed_rng, lines 69-73) *)

Record Generator : Type := {
  deviates : nat -> R;
  cursor : nat
}.

(** [rng.normal(loc, scale, size=n)]. *)
Definition normal (g : Generator) (loc scale : R) (size : nat)
  : list R * Generator :=
  (map (fun i => loc + scale * deviates g (cursor g + i)) (seq 0 size),
   {| deviates := deviates g; cursor := cursor g + size |}).

Section Seeding.
(** [np.random.default_rng(seed)] for a non-negative integer seed. *)
Variable default_rng : N -> Generator.

Definition seed_rng (now : R) (seed : option N) : Generator :=
  let seed :=
    match seed with
    | None => Z.to_N (Z.land (py_int (now * 1000)) 0xffffffff)
    | Some s => s
    end in
  default_rng seed.
End Seeding.

(** ** Synthetic fields (class SyntheticFields, lines 124-157) *)

Record SyntheticFields : Set := {
  syn_lat_min : R;
  syn_lat_max : R;
  syn_lon_min : R;
  syn_lon_max : R
}.

(** [SyntheticFields.__init__(domain)]. *)
Definition SyntheticFields_init (domain : Domain) : SyntheticFields :=
  {| syn_lat_min := lat_min domain;
     syn_lat_max := lat_max domain;
     syn_lon_min := lon_min domain;
     syn_lon_max := lon_max domain |}.

Definition uv_current (self : SyntheticFields) (lat lon tsec : R) : R * R :=
  let ly := (lat - syn_lat_min self)
            / (syn_lat_max self - syn_lat_min self + 1e-9) in
  let lx := (lon - syn_lon_min self)
            / (syn_lon_max self - syn_lon_min self + 1e-9) in
  let base := 0.25 in
  let u := base * (sin (2 * PI * lx) * cos (2 * PI * ly))
           * (1 + 0.1 * sin (2 * PI * tsec / 86400)) in
  let v := base * (- cos (2 * PI * lx) * sin (2 * PI * ly))
           * (1 + 0.1 * cos (2 * PI * tsec / 86400)) in
  let u := u + 0.05 * cos (2 * PI * ly) in
  (u, v).

Definition uv_wind10m (self : SyntheticFields) (lat lon tsec : R) : R * R :=
  let speed := 4.0 + 1.0 * sin (2 * PI * tsec / 86400) in
  let direction_rad := radians 60.0 in
  let u := speed * cos direction_rad in
  let v := speed * sin direction_rad in
  (u, v).

Definition SYN : SyntheticFields := SyntheticFields_init DOMAIN.

(** ** Grid interpolation (lines 162-195) *)

(** A two-dimensional array of shape [(ny, nx)], row by row. *)
Definition Array2 : Set := list (list R).

Definition shape0 (arr2d : Array2) : Z := Z.of_nat (length arr2d).
Definition shape1 (arr2d : Array2) : Z := Z.of_nat (length (hd [] arr2d)).

(** [arr2d[y, x]]. *)
Definition getitem2 (arr2d : Array2) (y x : Z) : except R :=
  row <- getitem arr2d y ;; getitem row x.

Definition bilinear_interpolate (arr2d : Array2) (x y : R) : except R :=
  let x0 := py_int (np_floor x) in let x1 := (x0 + 1)%Z in
  let y0 := py_int (np_floor y) in let y1 := (y0 + 1)%Z in
  let x0 := clamp x0 0 (shape1 arr2d - 1) in
  let x1 := clamp x1 0 (shape1 arr2d - 1) in
  let y0 := clamp y0 0 (shape0 arr2d - 1) in
  let y1 := clamp y1 0 (shape0 arr2d - 1) in
  q11 <- getitem2 arr2d y0 x0 ;; q21 <- getitem2 arr2d y0 x1 ;;
  q12 <- getitem2 arr2d y1 x0 ;; q22 <- getitem2 arr2d y1 x1 ;;
  let dx := x - IZR x0 in let dy := y - IZR y0 in
  Ok (q11 * (1 - dx) * (1 - dy) + q21 * dx * (1 - dy)
      + q12 * (1 - dx) * dy + q22 * dx * dy).

(** An xarray dataset as far as the sampler reads it: component variables
    of dimensions (time, lat, lon) by name, and the two coordinate
    arrays. *)
Record Dataset : Set := {
  variables : string -> option (list Array2);
  lats : list R;
  lons : list R
}.

(** [np.searchsorted(a, v)] on an ascending array (the source assumes the
    coordinates ascend): the number of entries strictly below [v]. *)
Definition searchsorted (a : list R) (v : R) : Z :=
  Z.of_nat (length (filter (fun c => if Rlt_dec c v then true else false) a)).

Definition sample_from_dataset (ds : Dataset) (varname : string)
  (lat lon : R) (tindex : Z) : except R :=
  var <- match variables ds varname with
         | Some var => Ok var
         | None => Raise KeyError
         end ;;
  v <- getitem var tindex ;;
  let lats := lats ds in
  let lons := lons ds in
  let iy := (searchsorted lats lat - 1)%Z in
  let ix := (searchsorted lons lon - 1)%Z in
  let iy := clamp iy 0 (Z.of_nat (length lats) - 2) in
  let ix := clamp ix 0 (Z.of_nat (length lons) - 2) in
  lon_lo <- getitem lons ix ;; lon_hi <- getitem lons (ix + 1) ;;
  let x := IZR ix + (lon - lon_lo) / Rmax (lon_hi - lon_lo) 1e-9 in
  lat_lo <- getitem lats iy ;; lat_hi <- getitem lats (iy + 1) ;;
  let y := IZR iy + (lat - lat_lo) / Rmax (lat_hi - lat_lo) 1e-9 in
  bilinear_interpolate v x y.

(** ** The field provider (class FieldProvider, lines 197-228) *)

Record FieldProvider : Set := {
  ds_ecco : option Dataset;
  ds_merra : option Dataset;
  tidx_ecco : Z;
  tidx_merra : Z
}.

(** [FieldProvider.__init__], given what the two loaders returned. *)
Definition FieldProvider_init (ecco merra : option Dataset) : FieldProvider :=
  {| ds_ecco := ecco; ds_merra := merra; tidx_ecco := 0; tidx_merra := 0 |}.

Definition current_uv (self : FieldProvider) (lat lon tsec : R) : R * R :=
  let fallback := uv_current SYN lat lon tsec in
  match ds_ecco self with
  | Some ds =>
      match (u <- sample_from_dataset ds "u" lat lon (tidx_ecco self) ;;
             v <- sample_from_dataset ds "v" lat lon (tidx_ecco self) ;;
             Ok (u, v)) with
      | Ok uv => uv
      | Raise _ => fallback
      end
  | None => fallback
  end.

Definition wind10m_uv (self : FieldProvider) (lat lon tsec : R) : R * R :=
  let fallback := uv_wind10m SYN lat lon tsec in
  match ds_merra self with
  | Some ds =>
      match (u <- sample_from_dataset ds "u10" lat lon (tidx_merra self) ;;
             v <- sample_from_dataset ds "v10" lat lon (tidx_merra self) ;;
             Ok (u, v)) with
      | Ok uv => uv
      | Raise _ => fallback
      end
  | None => fallback
  end.

(** ** The simulation engine (simulate_particles, lines 233-307) *)

(** The variables the integration loop updates. *)
Module Loop.
Record t : Type := {
  lat : list R;
  lon : list R;
  rng : Generator;
  sample_accum : nat;
  mean_track : list (R * R)
}.
End Loop.

(** The dictionary [simulate_particles] returns; points are (lon, lat). *)
Record Result : Set := {
  mean_track : list (R * R);
  final_cloud : list (R * R)
}.

(** [np.full((n,), v, dtype=float)]: a negative dimension is refused. *)
Definition np_full (n : Z) (v : R) : except (list R) :=
  if (n <? 0)%Z then Raise ValueError else Ok (repeat v (Z.to_nat n)).

(** What a function of the [math] module does to an array argument: it asks
    for the array's [__float__], which numpy grants to an array of exactly
    one cell (recent releases warn that this conversion is deprecated) and
    refuses with [TypeError] to an empty array or one of several cells. *)
Definition float_of_array (a : list R) : except R :=
  match a with
  | [x] => Ok x
  | _ => Raise TypeError
  end.

Definition meters_per_deg_lat : R := 111000.0.

Definition meters_to_deg_lat (d : list R) : list R :=
  vdiv d meters_per_deg_lat.

(** [d/(meters_per_deg_lat*math.cos(math.radians(lat_))+1e-9)], where the
    caller passes the whole latitude array as [lat_]. *)
Definition meters_to_deg_lon (d : list R) (lat_ : list R) : except (list R) :=
  lat_ <- float_of_array lat_ ;;
  Ok (vdiv d (meters_per_deg_lat * cos (radians lat_) + 1e-9)).

(** σ of the random walk (line 281). *)
Definition sigma_of (diff_m2s dt_sec : R) : R :=
  sqrt (Rmax (2.0 * diff_m2s * Rabs dt_sec) 1e-12).

(** [-DT_SECONDS if backward else DT_SECONDS] (line 253). *)
Definition dt_sec_of (backward : bool) : R :=
  if backward then - DT_SECONDS else DT_SECONDS.

(** [int(abs(hours*3600/DT_SECONDS))] (line 252). *)
Definition steps_of (hours : R) : Z :=
  py_int (Rabs (hours * 3600 / DT_SECONDS)).

(** The centroid bookkeeping that ends a step (lines 295-298). *)
Definition record_sample (lat lon : list R) (sample_accum : nat)
  (mean_track : list (R * R)) : nat * list (R * R) :=
  let sample_accum := (sample_accum + 1)%nat in
  if (SAMPLE_EVERY_STEPS <=? sample_accum)%nat
  then (0%nat, mean_track ++ [(np_mean lon, np_mean lat)])
  else (sample_accum, mean_track).

Section Simulation.
Variable default_rng : N -> Generator.
(** The process-wide provider [FIELDS]. *)
Variable FIELDS : FieldProvider.

(** One pass through the body of [for k in range(steps)]. The arrays
    [lat] and [lon] both have [n] cells, so the loop over [range(n)] that
    fills [u_c], [v_c], [u_w], [v_w] is a map over the two arrays. *)
Definition step (n : nat) (windage diff_m2s dt_sec : R) (k : nat)
  (st : Loop.t) : except Loop.t :=
  let lat := Loop.lat st in
  let lon := Loop.lon st in
  let rng := Loop.rng st in
  let t0 := 0.0 in
  let tsec := t0 + INR k * dt_sec in
  let u_c := map2 (fun la lo => fst (current_uv FIELDS la lo tsec)) lat lon in
  let v_c := map2 (fun la lo => snd (current_uv FIELDS la lo tsec)) lat lon in
  let u_w := map2 (fun la lo => fst (wind10m_uv FIELDS la lo tsec)) lat lon in
  let v_w := map2 (fun la lo => snd (wind10m_uv FIELDS la lo tsec)) lat lon in
  let u := vadd u_c (vscale u_w windage) in
  let v := vadd v_c (vscale v_w windage) in
  let sigma := sigma_of diff_m2s dt_sec in
  let '(dx_rand, rng) := normal rng 0.0 sigma n in
  let '(dy_rand, rng) := normal rng 0.0 sigma n in
  dlon <- meters_to_deg_lon (vadd (vscale u dt_sec) dx_rand) lat ;;
  let lon := vadd lon dlon in
  let lat := vadd lat (meters_to_deg_lat (vadd (vscale v dt_sec) dy_rand)) in
  let lat := np_clip lat (lat_min DOMAIN) (lat_max DOMAIN) in
  let lon := np_clip lon (lon_min DOMAIN) (lon_max DOMAIN) in
  let '(sample_accum, mean_track) :=
    record_sample lat lon (Loop.sample_accum st) (Loop.mean_track st) in
  Ok {| Loop.lat := lat; Loop.lon := lon; Loop.rng := rng;
        Loop.sample_accum := sample_accum;
        Loop.mean_track := mean_track |}.

(** [for k in ks: body], stopping at the first exception. *)
Fixpoint run_steps (n : nat) (windage diff_m2s dt_sec : R) (ks : list nat)
  (st : Loop.t) : except Loop.t :=
  match ks with
  | [] => Ok st
  | k :: ks' =>
      st' <- step n windage diff_m2s dt_sec k st ;;
      run_steps n windage diff_m2s dt_sec ks' st'
  end.

(** Lines 246-250: the generator and the jittered initial cloud. *)
Definition initial_state (now lat0 lon0 : R) (n : Z) (seed : option N)
  : except Loop.t :=
  let rng := seed_rng default_rng now seed in
  base_lat <- np_full n lat0 ;;
  let '(jitter, rng) := normal rng 0.0 0.001 (Z.to_nat n) in
  let lat := vadd base_lat jitter in
  base_lon <- np_full n lon0 ;;
  let '(jitter, rng) := normal rng 0.0 0.001 (Z.to_nat n) in
  let lon := vadd base_lon jitter in
  Ok {| Loop.lat := lat; Loop.lon := lon; Loop.rng := rng;
        Loop.sample_accum := 0; Loop.mean_track := [] |}.

(** Lines 300-307: the fallback track and the returned dictionary. *)
Definition make_result (lat0 lon0 : R) (st : Loop.t) : Result :=
  let mean_track :=
    match Loop.mean_track st with
    | [] => [(lon0, lat0)]
    | _ => Loop.mean_track st
    end in
  {| mean_track := mean_track;
     final_cloud := combine (Loop.lon st) (Loop.lat st) |}.

Definition simulate_particles (now lat0 lon0 hours : R) (n : Z)
  (windage diff_m2s : R) (backward : bool) (seed : option N)
  : except Result :=
  st <- initial_state now lat0 lon0 n seed ;;
  let steps := steps_of hours in
  let dt_sec := dt_sec_of backward in
  st <- run_steps (Z.to_nat n) windage diff_m2s dt_sec
          (seq 0 (Z.to_nat steps)) st ;;
  Ok (make_result lat0 lon0 st).

(** The two routes call the engine without a seed (lines 411-436); the
    query string has been parsed into the arguments. *)
Definition api_forward (now lat lon hrs : R) (n : Z) (wind diff : R)
  : except (list (R * R)) :=
  sim <- simulate_particles now lat lon hrs n wind diff false None ;;
  Ok (mean_track sim).

Definition api_backward (now lat lon hrs : R) (n : Z) (wind diff : R)
  : except (list (R * R)) :=
  sim <- simulate_particles now lat lon hrs n wind diff true None ;;
  Ok (mean_track sim).
End Simulation.

(** ** Notions the statements use *)

(** A numpy array is rectangular; the interpolator needs it non-empty. *)
Definition rectangular (arr2d : Array2) : Prop :=
  Forall (fun row => length row = length (hd [] arr2d)) arr2d.

Definition grid (arr2d : Array2) : Prop :=
  rectangular arr2d /\ (1 <= shape0 arr2d)%Z /\ (1 <= shape1 arr2d)%Z.

Definition cell (arr2d : Array2) (y x : Z) : R :=
  nth (Z.to_nat x) (nth (Z.to_nat y) arr2d []) 0.

(** The two clamped indices that bracket [x] on an axis of extent [m]. *)
Definition lower (m : Z) (x : R) : Z := clamp (Zfloor x) 0 (m - 1).
Definition upper (m : Z) (x : R) : Z := clamp (Zfloor x + 1) 0 (m - 1).

(** The linear weighting the sampler applies along one axis, [f] being the
    values along it. *)
Definition lerp (m : Z) (f : Z -> R) (x : R) : R :=
  let d := x - IZR (lower m x) in
  f (lower m x) * (1 - d) + f (upper m x) * d.

(** The nearest coordinate inside the index range [0, m-1]. *)
Definition nearest (m : Z) (x : R) : R := Rmax 0 (Rmin (IZR (m - 1)) x).

(** A grid to try the sampler on: two rows, two columns. *)
Definition grid22 : Array2 := [[1; 2]; [3; 4]].

(** The provider of a process that found neither data file. *)
Definition NO_DATA : FieldProvider := FieldProvider_init None None.

(** A point (lon, lat) of a track or a cloud lies in the Domain. *)
Definition in_Domain (p : R * R) : Prop :=
  lat_min DOMAIN <= snd p <= lat_max DOMAIN
  /\ lon_min DOMAIN <= fst p <= lon_max DOMAIN.

(** Every particle of the loop state lies in the Domain. *)
Definition ensemble_in_Domain (st : Loop.t) : Prop :=
  Forall (fun la => lat_min DOMAIN <= la <= lat_max DOMAIN) (Loop.lat st)
  /\ Forall (fun lo => lon_min DOMAIN <= lo <= lon_max DOMAIN) (Loop.lon st).

(** The loop variables after [j] passes through the loop body. *)
Definition state_after (default_rng : N -> Generator) (FIELDS : FieldProvider)
  (now lat0 lon0 : R) (n : Z) (windage diff_m2s : R) (backward : bool)
  (seed : option N) (j : nat) : except Loop.t :=
  st <- initial_state default_rng now lat0 lon0 n seed ;;
  run_steps FIELDS (Z.to_nat n) windage diff_m2s (dt_sec_of backward)
    (seq 0 j) st.

(** A generator to run the engine on: its deviates alternate 1, -1. *)
Definition test_rng (seed : N) : Generator :=
  {| deviates := fun i => if Nat.even (N.to_nat seed + i) then 1 else -1;
     cursor := 0 |}.

(** ** The rest of app.py *)

(** [math.sqrt] refuses a negative argument, [math.asin] one outside
    [-1, 1]. *)
Definition math_sqrt (x : R) : except R :=
  if Rlt_dec x 0 then Raise ValueError else Ok (sqrt x).

Definition math_asin (x : R) : except R :=
  if Rlt_dec x (-1) then Raise ValueError
  else if Rlt_dec 1 x then Raise ValueError
  else Ok (asin x).

(** [haversine_km] (lines 61-67). *)
Definition haversine_km (lat1 lon1 lat2 lon2 : R) : except R :=
  let R_ := 6371.0 in
  let dlat := radians (lat2 - lat1) in
  let dlon := radians (lon2 - lon1) in
  let a := sin (dlat / 2) ^ 2
           + cos (radians lat1) * cos (radians lat2) * sin (dlon / 2) ^ 2 in
  root <- math_sqrt a ;;
  angle <- math_asin root ;;
  Ok (2 * R_ * angle).

(** [x > y] on floats. *)
Definition gt (x y : R) : bool := if Rlt_dec y x then true else false.

(** [synth_status] (lines 329-332). *)
Definition synth_status (turbidity ph ec : R) : string :=
  if gt turbidity 10 || gt ph 9 || gt ec 40 then "ALERT"%string
  else if gt turbidity 7.5 || gt ph 8.5 || gt ec 36 then "WARNING"%string
  else "OK"%string.

(** One arrow of the overview the route [/currents] returns. *)
Record Arrow : Set := {
  arrow_lat : R;
  arrow_lon : R;
  arrow_u : R;
  arrow_v : R
}.

(** [api_currents] (lines 386-400), before [jsonify]. *)
Definition api_currents (FIELDS : FieldProvider) : list Arrow :=
  let rows := 8%nat in
  let cols := 10%nat in
  let tsec := 0.0 in
  flat_map
    (fun iy =>
       let lat := lat_min DOMAIN
                  + (INR iy + 0.5) * (lat_max DOMAIN - lat_min DOMAIN)
                    / INR rows in
       map
         (fun ix =>
            let lon := lon_min DOMAIN
                       + (INR ix + 0.5) * (lon_max DOMAIN - lon_min DOMAIN)
                         / INR cols in
            let '(u, v) := current_uv FIELDS lat lon tsec in
            {| arrow_lat := lat; arrow_lon := lon;
               arrow_u := u; arrow_v := v |})
         (seq 0 cols))
    (seq 0 rows).

(** ** Notions the further statements use *)

(** How severe a status string is. *)
Definition severity (status : string) : nat :=
  if String.eqb status "ALERT" then 2
  else if String.eqb status "WARNING" then 1
  else 0.

(** Coordinates that ascend by at least the spacing the sampler guards
    its division with. *)
Fixpoint spaced (coords : list R) : Prop :=
  match coords with
  | a :: (b :: _) as rest => a + 1e-9 <= b /\ spaced rest
  | _ => True
  end.

(** A dataset the sampler can read for [varname] at [tindex]: the variable
    is there with that time slice, the slice is a grid of one row per
    latitude and one column per longitude, and each coordinate array has
    at least two entries. *)
Definition readable (ds : Dataset) (varname : string) (tindex : Z)
  (arr2d : Array2) : Prop :=
  (exists var, variables ds varname = Some var /\ getitem var tindex = Ok arr2d)
  /\ grid arr2d
  /\ shape0 arr2d = Z.of_nat (length (lats ds))
  /\ shape1 arr2d = Z.of_nat (length (lons ds))
  /\ (2 <= length (lats ds))%nat /\ (2 <= length (lons ds))%nat.

(** The fractional index the sampler resolves a coordinate to (lines
    187-193), on an array of at least two coordinates. *)
Definition fractional_index (coords : list R) (c : R) : R :=
  let i := clamp (searchsorted coords c - 1) 0 (Z.of_nat (length coords) - 2) in
  IZR i + (c - nth (Z.to_nat i) coords 0)
          / Rmax (nth (Z.to_nat (i + 1)) coords 0 - nth (Z.to_nat i) coords 0)
              1e-9.

(** The nearest coordinate between the first and the last of the array. *)
Definition nearest_coord (coords : list R) (c : R) : R :=
  Rmax (nth 0 coords 0) (Rmin (last coords 0) c).

(** A dataset to try the sampler on: [grid22] over latitudes 23, 24 and
    longitudes 58, 59, as the only time slice of "u" and "v". *)
Definition dataset22 : Dataset :=
  {| variables := fun name =>
       if String.eqb name "u" then Some [grid22]
       else if String.eqb name "v" then Some [grid22]
       else None;
     lats := [23; 24];
     lons := [58; 59] |}.

(** A dataset with a single latitude. *)
Definition dataset_one_lat : Dataset :=
  {| variables := variables dataset22; lats := [23]; lons := [58; 59] |}.

(** * Properties *)

(** ** Integer conversions and clamping *)

Lemma py_int_IZR (z : Z) : py_int (IZR z) = z.
Proof.
  unfold py_int. destruct (Rle_dec 0 (IZR z)).
  - apply ZfloorZ.
  - apply Zceil_eq. lra.
Qed.

Lemma py_int_np_floor (x : R) : py_int (np_floor x) = Zfloor x.
Proof. apply py_int_IZR. Qed.

Lemma py_int_nonneg (x : R) : 0 <= x -> py_int x = Zfloor x.
Proof. intros Hx. unfold py_int. destruct (Rle_dec 0 x); [reflexivity | lra]. Qed.

Lemma clamp_range (v a b : Z) : (a <= b)%Z -> (a <= clamp v a b <= b)%Z.
Proof. unfold clamp. lia. Qed.

Lemma clip1_range (lo hi v : R) : lo <= hi -> lo <= clip1 lo hi v <= hi.
Proof.
  intros Hlohi. unfold clip1, Rmin, Rmax.
  destruct (Rle_dec v lo); destruct (Rle_dec _ hi); lra.
Qed.

Lemma np_clip_range (a : list R) (lo hi : R) :
  lo <= hi -> Forall (fun v => lo <= v <= hi) (np_clip a lo hi).
Proof.
  intros Hlohi. unfold np_clip. apply Forall_forall. intros v Hin.
  apply in_map_iff in Hin. destruct Hin as [w [<- _]].
  now apply clip1_range.
Qed.

(** ** Array shapes *)

Lemma map2_length {A B C : Type} (f : A -> B -> C) (xs : list A) (ys : list B) :
  length (map2 f xs ys) = Nat.min (length xs) (length ys).
Proof.
  revert ys. induction xs as [|x xs IH]; intros [|y ys]; simpl; auto.
Qed.

Lemma vadd_length (a b : list R) :
  length (vadd a b) = Nat.min (length a) (length b).
Proof. apply map2_length. Qed.

Lemma np_clip_length (a : list R) (lo hi : R) :
  length (np_clip a lo hi) = length a.
Proof. apply length_map. Qed.

Lemma normal_length (g : Generator) (loc scale : R) (size : nat) :
  length (fst (normal g loc scale size)) = size.
Proof. simpl. now rewrite length_map, length_seq. Qed.

(** ** Indexing *)

Lemma getitem_in_range {A : Type} (l : list A) (i : Z) (d : A) :
  (0 <= i < Z.of_nat (length l))%Z -> getitem l i = Ok (nth (Z.to_nat i) l d).
Proof.
  intros Hi. unfold getitem.
  destruct (Z.ltb_spec i 0); [lia|].
  destruct (Z.leb_spec 0 i); [|lia].
  destruct (Z.ltb_spec i (Z.of_nat (length l))); [|lia]. simpl.
  rewrite (nth_error_nth' l d) by lia. reflexivity.
Qed.

Lemma getitem2_in_range (arr2d : Array2) (y x : Z) :
  rectangular arr2d ->
  (0 <= y < shape0 arr2d)%Z -> (0 <= x < shape1 arr2d)%Z ->
  getitem2 arr2d y x = Ok (cell arr2d y x).
Proof.
  intros Hrect Hy Hx. unfold getitem2, shape0, shape1 in *.
  rewrite (getitem_in_range arr2d y []) by exact Hy. simpl.
  assert (Hrow : length (nth (Z.to_nat y) arr2d []) = length (hd [] arr2d)).
  { unfold rectangular in Hrect. rewrite Forall_forall in Hrect.
    apply Hrect. apply nth_In. lia. }
  apply getitem_in_range. rewrite Hrow. exact Hx.
Qed.

(** ** One axis of the interpolation *)

Section Axis.
(** Extent of the axis and the values along it. *)
Variable m : Z.
Variable f : Z -> R.
Hypothesis m_pos : (1 <= m)%Z.

Local Abbreviation lower := (lower m).
Local Abbreviation upper := (upper m).
Local Abbreviation lerp := (lerp m f).
Local Abbreviation nearest := (nearest m).

Lemma lower_range (x : R) : (0 <= lower x < m)%Z.
Proof using m_pos. unfold lower, clamp. lia. Qed.

Lemma upper_range (x : R) : (0 <= upper x < m)%Z.
Proof using m_pos. unfold upper, clamp. lia. Qed.

Lemma lerp_vertex (i : Z) : (0 <= i < m)%Z -> lerp (IZR i) = f i.
Proof using m_pos.
  intros Hi. unfold lerp, lower, upper. rewrite ZfloorZ.
  replace (clamp i 0 (m - 1)) with i by (unfold clamp; lia). ring.
Qed.

Lemma nearest_below (x : R) : x < 0 -> nearest x = 0.
Proof using m_pos.
  intros Hx. unfold nearest, Rmax, Rmin.
  assert (0 <= IZR (m - 1)) by (apply IZR_le; lia).
  destruct (Rle_dec (IZR (m - 1)) x); destruct (Rle_dec 0 _); lra.
Qed.

Lemma nearest_above (x : R) : IZR (m - 1) < x -> nearest x = IZR (m - 1).
Proof using m_pos.
  intros Hx. unfold nearest, Rmax, Rmin.
  assert (0 <= IZR (m - 1)) by (apply IZR_le; lia).
  destruct (Rle_dec (IZR (m - 1)) x); destruct (Rle_dec 0 _); lra.
Qed.

Lemma nearest_inside (x : R) : 0 <= x <= IZR (m - 1) -> nearest x = x.
Proof using m_pos.
  intros Hx. unfold nearest, Rmax, Rmin.
  destruct (Rle_dec (IZR (m - 1)) x); destruct (Rle_dec 0 _); lra.
Qed.

Lemma lerp_below (x : R) : x < 0 -> lerp x = f 0%Z.
Proof using m_pos.
  intros Hx. unfold lerp, lower, upper.
  assert (Hfl : (Zfloor x < 0)%Z).
  { apply lt_IZR. generalize (Zfloor_bound x). lra. }
  replace (clamp (Zfloor x) 0 (m - 1)) with 0%Z by (unfold clamp; lia).
  replace (clamp (Zfloor x + 1) 0 (m - 1)) with 0%Z by (unfold clamp; lia).
  ring.
Qed.

Lemma lerp_above (x : R) : IZR (m - 1) < x -> lerp x = f (m - 1)%Z.
Proof using m_pos.
  intros Hx. unfold lerp, lower, upper.
  assert (Hfl : (m - 1 <= Zfloor x)%Z) by (apply Zfloor_lub; lra).
  replace (clamp (Zfloor x) 0 (m - 1)) with (m - 1)%Z by (unfold clamp; lia).
  replace (clamp (Zfloor x + 1) 0 (m - 1)) with (m - 1)%Z
    by (unfold clamp; lia).
  ring.
Qed.

(** Outside the index range the weighting returns what it returns at
    the nearest end of the range. *)
Lemma lerp_nearest (x : R) : lerp x = lerp (nearest x).
Proof using m_pos.
  destruct (Rlt_dec x 0) as [Hlo|Hlo].
  - rewrite (nearest_below x Hlo), (lerp_below x Hlo).
    symmetry. apply (lerp_vertex 0). lia.
  - destruct (Rlt_dec (IZR (m - 1)) x) as [Hhi|Hhi].
    + rewrite (nearest_above x Hhi), (lerp_above x Hhi).
      symmetry. apply lerp_vertex. lia.
    + rewrite nearest_inside by lra. reflexivity.
Qed.
End Axis.

(** ** The bilinear sampler on a grid *)

(** On a grid no lookup of the sampler fails, and its value is the axis
    weighting along x nested in the one along y. *)
Lemma bilinear_interpolate_lerp (arr2d : Array2) (x y : R) :
  grid arr2d ->
  bilinear_interpolate arr2d x y
  = Ok (lerp (shape0 arr2d)
          (fun j => lerp (shape1 arr2d) (fun i => cell arr2d j i) x) y).
Proof.
  intros (Hrect & Hny & Hnx). unfold bilinear_interpolate.
  rewrite !py_int_np_floor.
  change (clamp (Zfloor x) 0 (shape1 arr2d - 1)) with (lower (shape1 arr2d) x).
  change (clamp (Zfloor x + 1) 0 (shape1 arr2d - 1))
    with (upper (shape1 arr2d) x).
  change (clamp (Zfloor y) 0 (shape0 arr2d - 1)) with (lower (shape0 arr2d) y).
  change (clamp (Zfloor y + 1) 0 (shape0 arr2d - 1))
    with (upper (shape0 arr2d) y).
  pose proof (lower_range _ Hnx x) as Hx0.
  pose proof (upper_range _ Hnx x) as Hx1.
  pose proof (lower_range _ Hny y) as Hy0.
  pose proof (upper_range _ Hny y) as Hy1.
  rewrite !getitem2_in_range by assumption. simpl.
  f_equal. unfold lerp. ring.
Qed.

(** C6. Sampling at an exact vertex (x = i, y = j) of a grid returns the
    stored cell [arr2d[j, i]]; and at any query point the sampler succeeds
    and returns what it returns at the point with each coordinate moved to
    the nearest index of its range, so that a coordinate outside the range
    contributes the edge value only. *)
Theorem bilinear_interpolate_vertex_and_edge (arr2d : Array2) :
  grid arr2d ->
  (forall i j : Z,
      (0 <= i < shape1 arr2d)%Z -> (0 <= j < shape0 arr2d)%Z ->
      bilinear_interpolate arr2d (IZR i) (IZR j) = getitem2 arr2d j i)
  /\
  (forall x y : R,
      succeeds (bilinear_interpolate arr2d x y)
      /\ bilinear_interpolate arr2d x y
         = bilinear_interpolate arr2d
             (nearest (shape1 arr2d) x) (nearest (shape0 arr2d) y)).
Proof.
  intros Hgrid. pose proof Hgrid as (Hrect & Hny & Hnx). split.
  - intros i j Hi Hj.
    rewrite bilinear_interpolate_lerp by exact Hgrid.
    rewrite (lerp_vertex _ _ Hny j Hj), (lerp_vertex _ _ Hnx i Hi).
    symmetry. now apply getitem2_in_range.
  - intros x y. split.
    + rewrite bilinear_interpolate_lerp by exact Hgrid. eexists. reflexivity.
    + rewrite !bilinear_interpolate_lerp by exact Hgrid. f_equal.
      rewrite (lerp_nearest _ _ Hny y).
      unfold lerp at 1 3.
      rewrite (lerp_nearest _ (fun i => cell arr2d (lower (shape0 arr2d) (nearest (shape0 arr2d) y)) i) Hnx x).
      rewrite (lerp_nearest _ (fun i => cell arr2d (upper (shape0 arr2d) (nearest (shape0 arr2d) y)) i) Hnx x).
      reflexivity.
Qed.

Lemma grid22_grid : grid grid22.
Proof.
  unfold grid, rectangular, grid22, shape0, shape1. simpl.
  repeat split; try lia. repeat constructor.
Qed.

Lemma bilinear_interpolate_vertex_and_edge_witness :
  grid grid22 /\
  ((forall i j : Z,
       (0 <= i < shape1 grid22)%Z -> (0 <= j < shape0 grid22)%Z ->
       bilinear_interpolate grid22 (IZR i) (IZR j) = getitem2 grid22 j i)
   /\
   (forall x y : R,
       succeeds (bilinear_interpolate grid22 x y)
       /\ bilinear_interpolate grid22 x y
          = bilinear_interpolate grid22
              (nearest (shape1 grid22) x) (nearest (shape0 grid22) y))).
Proof.
  split.
  - exact grid22_grid.
  - apply (bilinear_interpolate_vertex_and_edge grid22). exact grid22_grid.
Defined.

(** Left of the grid and above its last row the sampler answers the
    corner cell. *)
Example bilinear_interpolate_corner :
  bilinear_interpolate grid22 (-2.5) 7 = Ok 3.
Proof.
  rewrite bilinear_interpolate_lerp by exact grid22_grid.
  change (shape0 grid22) with 2%Z. change (shape1 grid22) with 2%Z.
  rewrite (lerp_above 2 _ ltac:(lia) 7) by (simpl; lra).
  rewrite (lerp_below 2 _ ltac:(lia) (-2.5)) by lra.
  reflexivity.
Qed.

(** ** The field provider without datasets *)

(** C5. With no current dataset loaded, [current_uv] is the synthetic
    current at the same (lat, lon, t); with no wind dataset loaded,
    [wind10m_uv] is the synthetic wind. *)
Theorem FieldProvider_without_dataset (self : FieldProvider) (lat lon tsec : R) :
  (ds_ecco self = None ->
   current_uv self lat lon tsec = uv_current SYN lat lon tsec)
  /\
  (ds_merra self = None ->
   wind10m_uv self lat lon tsec = uv_wind10m SYN lat lon tsec).
Proof.
  split; intros Hnone.
  - unfold current_uv. rewrite Hnone. reflexivity.
  - unfold wind10m_uv. rewrite Hnone. reflexivity.
Qed.

Lemma FieldProvider_without_dataset_witness :
  current_uv NO_DATA 23.6 58.5 0 = uv_current SYN 23.6 58.5 0
  /\ wind10m_uv NO_DATA 23.6 58.5 0 = uv_wind10m SYN 23.6 58.5 0.
Proof.
  split.
  - apply (proj1 (FieldProvider_without_dataset NO_DATA 23.6 58.5 0)).
    reflexivity.
  - apply (proj2 (FieldProvider_without_dataset NO_DATA 23.6 58.5 0)).
    reflexivity.
Defined.

(** A sampling failure falls back for that call: a dataset that lacks the
    variable answers the synthetic current as well. *)
Lemma current_uv_fallback_on_error (ds : Dataset) (lat lon tsec : R) :
  variables ds "u"%string = None ->
  current_uv (FieldProvider_init (Some ds) None) lat lon tsec
  = uv_current SYN lat lon tsec.
Proof.
  intros Hmissing. unfold current_uv, sample_from_dataset. simpl.
  rewrite Hmissing. reflexivity.
Qed.

(** ** The integration loop *)

(** Unfold one pass down to the conversion that may raise. *)
Ltac open_step := unfold step, normal; cbv beta iota zeta.

Lemma record_sample_count (lat lon : list R) (acc : nat) (track : list (R * R)) :
  (acc < SAMPLE_EVERY_STEPS)%nat ->
  (fst (record_sample lat lon acc track) < SAMPLE_EVERY_STEPS)%nat
  /\ (SAMPLE_EVERY_STEPS * length (snd (record_sample lat lon acc track))
      + fst (record_sample lat lon acc track)
      = SAMPLE_EVERY_STEPS * length track + acc + 1)%nat.
Proof.
  unfold record_sample, SAMPLE_EVERY_STEPS. intros Hacc.
  destruct (Nat.leb_spec 3 (acc + 1)); simpl.
  - rewrite length_app. simpl. lia.
  - lia.
Qed.

Section Run.
Variable default_rng : N -> Generator.
Variable FIELDS : FieldProvider.
Variables (n : nat) (windage diff_m2s dt_sec : R).

Local Abbreviation body := (step FIELDS n windage diff_m2s dt_sec).
Local Abbreviation loop := (run_steps FIELDS n windage diff_m2s dt_sec).

(** The conversion to degrees of longitude is handed the whole latitude
    array, so a pass through the body survives it only with one particle. *)
Lemma step_TypeError (k : nat) (st : Loop.t) :
  length (Loop.lat st) <> 1%nat -> body k st = Raise TypeError.
Proof.
  intros Hlen. open_step; unfold meters_to_deg_lon.
  destruct (Loop.lat st) as [|la [|la' rest]]; simpl in *;
    [reflexivity | congruence | reflexivity].
Qed.

Lemma step_one_particle (k : nat) (st : Loop.t) :
  length (Loop.lat st) = 1%nat -> succeeds (body k st).
Proof.
  intros Hlen. open_step; unfold meters_to_deg_lon.
  destruct (Loop.lat st) as [|la [|la' rest]]; simpl in *; try discriminate.
  destruct (record_sample _ _ _ _). eexists. reflexivity.
Qed.

(** Whatever a completed pass computed, it ends by clipping. *)
Lemma step_in_Domain (k : nat) (st st' : Loop.t) :
  body k st = Ok st' -> ensemble_in_Domain st'.
Proof.
  open_step. destruct (meters_to_deg_lon _ _) as [dlon|e]; simpl;
    [|discriminate].
  destruct (record_sample _ _ _ _) as [acc track]. intros [= <-].
  split; simpl; apply np_clip_range; simpl; lra.
Qed.

Lemma step_shape (k : nat) (st st' : Loop.t) :
  length (Loop.lat st) = 1%nat -> length (Loop.lon st) = 1%nat -> n = 1%nat ->
  body k st = Ok st' ->
  length (Loop.lat st') = 1%nat /\ length (Loop.lon st') = 1%nat.
Proof.
  intros Hlat Hlon Hn. open_step; unfold meters_to_deg_lon. subst n.
  destruct (Loop.lat st) as [|la [|la' rest]]; simpl in *; try discriminate.
  destruct (Loop.lon st) as [|lo [|lo' rest]]; simpl in *; try discriminate.
  destruct (record_sample _ _ _ _) as [acc track]. intros [= <-].
  split; reflexivity.
Qed.

(** The bookkeeping of a completed pass, whatever the positions. *)
Lemma step_samples (k : nat) (st st' : Loop.t) :
  body k st = Ok st' ->
  exists lat lon,
    (Loop.sample_accum st', Loop.mean_track st')
    = record_sample lat lon (Loop.sample_accum st) (Loop.mean_track st).
Proof.
  open_step. destruct (meters_to_deg_lon _ _) as [dlon|e]; simpl;
    [|discriminate].
  intros Hpass.
  match type of Hpass with
  | context [record_sample ?la ?lo _ _] => exists la, lo
  end.
  destruct (record_sample _ _ _ _) as [acc track].
  injection Hpass as <-. reflexivity.
Qed.

Lemma step_count (k : nat) (st st' : Loop.t) :
  body k st = Ok st' ->
  (Loop.sample_accum st < SAMPLE_EVERY_STEPS)%nat ->
  (Loop.sample_accum st' < SAMPLE_EVERY_STEPS)%nat
  /\ (SAMPLE_EVERY_STEPS * length (Loop.mean_track st') + Loop.sample_accum st'
      = SAMPLE_EVERY_STEPS * length (Loop.mean_track st)
        + Loop.sample_accum st + 1)%nat.
Proof.
  intros Hpass Hacc. destruct (step_samples k st st' Hpass) as (la & lo & Heq).
  pose proof (record_sample_count la lo _ (Loop.mean_track st) Hacc) as Hcount.
  rewrite <- Heq in Hcount. exact Hcount.
Qed.

Lemma run_steps_TypeError (ks : list nat) (st : Loop.t) :
  length (Loop.lat st) <> 1%nat -> ks <> [] -> loop ks st = Raise TypeError.
Proof.
  intros Hlen Hks. destruct ks as [|k ks]; [congruence|].
  simpl. rewrite step_TypeError by exact Hlen. reflexivity.
Qed.

Lemma run_steps_one_particle (ks : list nat) (st : Loop.t) :
  n = 1%nat ->
  length (Loop.lat st) = 1%nat -> length (Loop.lon st) = 1%nat ->
  exists st', loop ks st = Ok st'
              /\ length (Loop.lat st') = 1%nat
              /\ length (Loop.lon st') = 1%nat.
Proof.
  intros Hn. revert st. induction ks as [|k ks IH]; intros st Hlat Hlon.
  - exists st. repeat split; assumption.
  - destruct (step_one_particle k st Hlat) as [st1 Hst1].
    destruct (step_shape k st st1 Hlat Hlon Hn Hst1) as [Hlat1 Hlon1].
    destruct (IH st1 Hlat1 Hlon1) as (st' & Hrun & Hshape).
    exists st'. split; [|exact Hshape]. simpl. rewrite Hst1. exact Hrun.
Qed.

Lemma run_steps_in_Domain (ks : list nat) (st st' : Loop.t) :
  ks <> [] -> loop ks st = Ok st' -> ensemble_in_Domain st'.
Proof.
  revert st. induction ks as [|k ks IH]; intros st Hks Hrun; [congruence|].
  simpl in Hrun. destruct (body k st) as [st1|e] eqn:Hst1; [|discriminate].
  simpl in Hrun. destruct ks as [|k' ks'].
  - injection Hrun as <-. exact (step_in_Domain k st st1 Hst1).
  - apply (IH st1); [discriminate | exact Hrun].
Qed.

Lemma run_steps_count (ks : list nat) (st st' : Loop.t) :
  loop ks st = Ok st' ->
  (Loop.sample_accum st < SAMPLE_EVERY_STEPS)%nat ->
  (Loop.sample_accum st' < SAMPLE_EVERY_STEPS)%nat
  /\ (SAMPLE_EVERY_STEPS * length (Loop.mean_track st') + Loop.sample_accum st'
      = SAMPLE_EVERY_STEPS * length (Loop.mean_track st)
        + Loop.sample_accum st + length ks)%nat.
Proof.
  revert st. induction ks as [|k ks IH]; intros st Hrun Hacc.
  - injection Hrun as <-. simpl. lia.
  - simpl in Hrun. destruct (body k st) as [st1|e] eqn:Hst1; [|discriminate].
    simpl in Hrun. destruct (step_count k st st1 Hst1 Hacc) as [Hacc1 Hone].
    destruct (IH st1 Hrun Hacc1) as [Hacc' Hrest].
    split; [exact Hacc'|]. simpl length. lia.
Qed.
End Run.

(** ** Step count *)

Lemma steps_of_floor (hours : R) :
  steps_of hours = Zfloor (Rabs (hours * 3600 / DT_SECONDS)).
Proof. unfold steps_of. apply py_int_nonneg. apply Rabs_pos. Qed.

Lemma steps_of_scaled (hours : R) :
  Rabs (hours * 3600 / DT_SECONDS) = Rabs hours * 6.
Proof.
  unfold DT_SECONDS. replace (hours * 3600 / 600.0) with (hours * 6) by lra.
  rewrite Rabs_mult. f_equal. apply Rabs_pos_eq. lra.
Qed.

Lemma steps_of_nonneg (hours : R) : (0 <= steps_of hours)%Z.
Proof.
  rewrite steps_of_floor. apply Zfloor_lub. apply Rabs_pos.
Qed.

(** A horizon of [k] ticks, in either direction of the sign. *)
Lemma steps_of_ticks (hours : R) (k : Z) :
  Rabs hours * 6 = IZR k -> steps_of hours = k.
Proof.
  intros Hk. unfold steps_of. rewrite steps_of_scaled, Hk. apply py_int_IZR.
Qed.

(** A horizon shorter than one tick. *)
Lemma steps_of_short (hours : R) : Rabs hours * 6 < 1 -> steps_of hours = 0%Z.
Proof.
  intros Hshort. rewrite steps_of_floor, steps_of_scaled.
  apply Zfloor_eq. pose proof (Rabs_pos hours). simpl. lra.
Qed.

(** A horizon of [k] whole ticks and a fraction. *)
Lemma steps_of_between (hours : R) (k : Z) :
  IZR k <= Rabs hours * 6 < IZR k + 1 -> steps_of hours = k.
Proof.
  intros Hk. rewrite steps_of_floor, steps_of_scaled. apply Zfloor_eq. exact Hk.
Qed.

Lemma steps_of_opp (hours : R) : steps_of (- hours) = steps_of hours.
Proof.
  unfold steps_of. rewrite !steps_of_scaled, Rabs_Ropp. reflexivity.
Qed.

(** ** The engine *)

Lemma Forall_combine_in_Domain (lon lat : list R) :
  Forall (fun lo => lon_min DOMAIN <= lo <= lon_max DOMAIN) lon ->
  Forall (fun la => lat_min DOMAIN <= la <= lat_max DOMAIN) lat ->
  Forall in_Domain (combine lon lat).
Proof.
  intros Hlon. revert lat. induction Hlon as [|lo lon Hlo _ IH];
    intros lat Hlat; simpl; [constructor|].
  destruct Hlat as [|la lat Hla Hlat]; constructor.
  - split; assumption.
  - apply IH. exact Hlat.
Qed.

Lemma run_steps_app (FIELDS : FieldProvider) (n : nat)
  (windage diff_m2s dt_sec : R) (ks ks' : list nat) (st : Loop.t) :
  run_steps FIELDS n windage diff_m2s dt_sec (ks ++ ks') st
  = (st' <- run_steps FIELDS n windage diff_m2s dt_sec ks st ;;
     run_steps FIELDS n windage diff_m2s dt_sec ks' st').
Proof.
  revert st. induction ks as [|k ks IH]; intros st; simpl; [reflexivity|].
  destruct (step _ _ _ _ _ k st); simpl; [apply IH | reflexivity].
Qed.

Section Engine.
Variable default_rng : N -> Generator.
Variable FIELDS : FieldProvider.
Variables (now lat0 lon0 hours : R) (n : Z) (windage diff_m2s : R).
Variables (backward : bool) (seed : option N).

Local Abbreviation init := (initial_state default_rng now lat0 lon0 n seed).
Local Abbreviation after :=
  (state_after default_rng FIELDS now lat0 lon0 n windage diff_m2s backward seed).
Local Abbreviation run :=
  (simulate_particles default_rng FIELDS now lat0 lon0 hours n windage diff_m2s
     backward seed).

Lemma initial_state_negative : (n < 0)%Z -> init = Raise ValueError.
Proof.
  intros Hn. unfold initial_state, np_full.
  destruct (Z.ltb_spec n 0); [reflexivity | lia].
Qed.

Lemma initial_state_nonneg :
  (0 <= n)%Z ->
  let g := seed_rng default_rng now seed in
  let m := Z.to_nat n in
  init = Ok {| Loop.lat := vadd (repeat lat0 m) (fst (normal g 0.0 0.001 m));
               Loop.lon := vadd (repeat lon0 m)
                             (fst (normal (snd (normal g 0.0 0.001 m))
                                     0.0 0.001 m));
               Loop.rng := snd (normal (snd (normal g 0.0 0.001 m))
                                  0.0 0.001 m);
               Loop.sample_accum := 0;
               Loop.mean_track := [] |}.
Proof.
  intros Hn. unfold initial_state, np_full.
  destruct (Z.ltb_spec n 0); [lia | reflexivity].
Qed.

Lemma initial_state_shape (st : Loop.t) :
  init = Ok st ->
  length (Loop.lat st) = Z.to_nat n /\ length (Loop.lon st) = Z.to_nat n
  /\ Loop.sample_accum st = 0%nat /\ Loop.mean_track st = [].
Proof.
  intros Hinit. destruct (Z.ltb_spec n 0) as [Hneg|Hpos].
  - rewrite initial_state_negative in Hinit by exact Hneg. discriminate.
  - rewrite (initial_state_nonneg Hpos) in Hinit. injection Hinit as <-.
    simpl. rewrite !vadd_length, !repeat_length, !length_map, !length_seq.
    repeat split; lia.
Qed.

(** The engine is the initial cloud, the loop and the packing of the
    result. *)
Lemma simulate_particles_state_after :
  run = (st <- after (Z.to_nat (steps_of hours)) ;;
         Ok (make_result lat0 lon0 st)).
Proof.
  unfold simulate_particles, state_after. destruct init; reflexivity.
Qed.

Lemma state_after_0 : after 0%nat = init.
Proof. unfold state_after. destruct init; reflexivity. Qed.

(** Pass number [j] (counting from 0) takes the state after [j] passes to
    the state after [j + 1]. *)
Lemma state_after_S (j : nat) :
  after (S j)
  = (st <- after j ;;
     step FIELDS (Z.to_nat n) windage diff_m2s (dt_sec_of backward) j st).
Proof.
  unfold state_after. rewrite seq_S. simpl.
  destruct init as [st0|e]; simpl; [|reflexivity].
  rewrite run_steps_app. simpl.
  destruct (run_steps _ _ _ _ _ _ st0) as [st|e]; simpl; [|reflexivity].
  destruct (step _ _ _ _ _ j st); reflexivity.
Qed.

Lemma state_after_in_Domain (j : nat) (st : Loop.t) :
  (1 <= j)%nat -> after j = Ok st -> ensemble_in_Domain st.
Proof.
  intros Hj. unfold state_after.
  destruct init as [st0|e]; simpl; [|discriminate].
  apply run_steps_in_Domain. destruct j; [lia | discriminate].
Qed.

(** With more or fewer than one particle the first pass raises. *)
Lemma state_after_TypeError (j : nat) :
  (0 <= n)%Z -> n <> 1%Z -> (1 <= j)%nat -> after j = Raise TypeError.
Proof.
  intros Hn Hn1 Hj. unfold state_after.
  rewrite (initial_state_nonneg Hn). simpl.
  apply run_steps_TypeError; [|destruct j; [lia | discriminate]].
  simpl. rewrite vadd_length, repeat_length, length_map, length_seq. lia.
Qed.

(** With one particle every pass completes. *)
Lemma state_after_one_particle (j : nat) :
  n = 1%Z ->
  exists st, after j = Ok st
             /\ length (Loop.lat st) = 1%nat /\ length (Loop.lon st) = 1%nat.
Proof.
  intros Hn. unfold state_after.
  rewrite initial_state_nonneg by lia. simpl. subst n.
  apply run_steps_one_particle; reflexivity.
Qed.

Lemma state_after_count (j : nat) (st : Loop.t) :
  after j = Ok st ->
  (Loop.sample_accum st < SAMPLE_EVERY_STEPS)%nat
  /\ (SAMPLE_EVERY_STEPS * length (Loop.mean_track st) + Loop.sample_accum st
      = j)%nat.
Proof.
  unfold state_after. destruct init as [st0|e] eqn:Hinit; simpl;
    [|discriminate].
  intros Hrun. destruct (initial_state_shape st0 Hinit) as (_ & _ & Hacc & Htr).
  assert (Hlt : (Loop.sample_accum st0 < SAMPLE_EVERY_STEPS)%nat)
    by (rewrite Hacc; unfold SAMPLE_EVERY_STEPS; lia).
  destruct (run_steps_count _ _ _ _ _ _ st0 st Hrun Hlt) as [Hacc' Hcount].
  split; [exact Hacc'|].
  rewrite Hacc, Htr, length_seq in Hcount.
  unfold SAMPLE_EVERY_STEPS in *. simpl in *. lia.
Qed.
End Engine.

Section Outcome.
Variable default_rng : N -> Generator.
Variable FIELDS : FieldProvider.
Variables (now lat0 lon0 hours : R) (n : Z) (windage diff_m2s : R).
Variables (backward : bool) (seed : option N).

Local Abbreviation init := (initial_state default_rng now lat0 lon0 n seed).
Local Abbreviation after :=
  (state_after default_rng FIELDS now lat0 lon0 n windage diff_m2s backward seed).
Local Abbreviation run :=
  (simulate_particles default_rng FIELDS now lat0 lon0 hours n windage diff_m2s
     backward seed).

Lemma state_after_shape (j : nat) (st : Loop.t) :
  after j = Ok st ->
  length (Loop.lat st) = Z.to_nat n /\ length (Loop.lon st) = Z.to_nat n.
Proof.
  intros Hafter. destruct j as [|j].
  - rewrite state_after_0 in Hafter.
    destruct (initial_state_shape _ _ _ _ _ _ st Hafter) as (Hlat & Hlon & _).
    split; assumption.
  - destruct (Z.ltb_spec n 0) as [Hneg|Hpos].
    + unfold state_after in Hafter.
      rewrite initial_state_negative in Hafter by exact Hneg. discriminate.
    + destruct (Z.eq_dec n 1) as [Hone|Hmany].
      * destruct (state_after_one_particle default_rng FIELDS now lat0 lon0 n
                    windage diff_m2s backward seed (S j) Hone)
          as (st1 & Hst1 & Hlat & Hlon).
        rewrite Hst1 in Hafter. injection Hafter as <-.
        rewrite Hone. split; assumption.
      * rewrite state_after_TypeError in Hafter by (assumption || lia).
        discriminate.
Qed.

(** What a returned result looks like. *)
Lemma simulate_particles_result (r : Result) :
  run = Ok r ->
  let s := Z.to_nat (steps_of hours) in
  length (final_cloud r) = Z.to_nat n
  /\ length (mean_track r) = Nat.max 1 (s / SAMPLE_EVERY_STEPS)
  /\ ((s < SAMPLE_EVERY_STEPS)%nat -> mean_track r = [(lon0, lat0)]).
Proof.
  rewrite simulate_particles_state_after. intros Hrun s. fold s in Hrun.
  destruct (after s) as [st|e] eqn:Hafter; [|discriminate].
  simpl in Hrun. injection Hrun as <-.
  destruct (state_after_shape s st Hafter) as [Hlat Hlon].
  destruct (state_after_count _ _ _ _ _ _ _ _ _ _ s st Hafter)
    as [Hacc Hcount].
  unfold SAMPLE_EVERY_STEPS in *. unfold make_result.
  cbn [mean_track final_cloud].
  split; [rewrite length_combine; lia|].
  assert (Hlen : length (Loop.mean_track st) = (s / 3)%nat).
  { apply (Nat.div_unique s 3 _ (Loop.sample_accum st)); lia. }
  destruct (Loop.mean_track st) as [|p track] eqn:Htrack.
  - cbn [length] in Hlen. rewrite <- Hlen. split; reflexivity.
  - split.
    + rewrite <- Hlen. cbn [length]. lia.
    + intros Hs. rewrite Nat.div_small in Hlen by exact Hs. discriminate.
Qed.

(** No pass runs: the jittered initial cloud and the release point come
    back. *)
Lemma simulate_particles_zero_steps :
  (0 <= n)%Z -> steps_of hours = 0%Z ->
  let g := seed_rng default_rng now seed in
  let m := Z.to_nat n in
  run = Ok {| mean_track := [(lon0, lat0)];
              final_cloud :=
                combine
                  (vadd (repeat lon0 m)
                     (fst (normal (snd (normal g 0.0 0.001 m)) 0.0 0.001 m)))
                  (vadd (repeat lat0 m) (fst (normal g 0.0 0.001 m))) |}.
Proof.
  intros Hn Hsteps. unfold simulate_particles.
  rewrite (initial_state_nonneg _ _ _ _ _ _ Hn), Hsteps. reflexivity.
Qed.

Lemma simulate_particles_negative : (n < 0)%Z -> run = Raise ValueError.
Proof.
  intros Hn. unfold simulate_particles.
  rewrite initial_state_negative by exact Hn. reflexivity.
Qed.

(** The engine raises as soon as a pass is due on a cloud that is not a
    single particle. *)
Lemma simulate_particles_TypeError :
  (0 <= n)%Z -> n <> 1%Z -> (1 <= steps_of hours)%Z -> run = Raise TypeError.
Proof.
  intros Hn Hmany Hsteps. rewrite simulate_particles_state_after.
  rewrite state_after_TypeError by (assumption || lia). reflexivity.
Qed.

Lemma simulate_particles_one_particle :
  n = 1%Z -> succeeds run.
Proof.
  intros Hone. rewrite simulate_particles_state_after.
  destruct (state_after_one_particle default_rng FIELDS now lat0 lon0 n
              windage diff_m2s backward seed (Z.to_nat (steps_of hours)) Hone)
    as (st & Hst & _).
  rewrite Hst. eexists. reflexivity.
Qed.
End Outcome.

(** * The claims *)

(** ** Clamping into the Domain *)

(** C1, as the code has it. After every completed pass through the loop
    body every particle lies in the Domain, in either direction; hence
    every point of the final cloud of a run of at least one step does.
    (The jittered initial cloud is never clipped, so a run of zero steps
    returns it as it is.) *)
Theorem clamped_after_every_step (default_rng : N -> Generator)
  (FIELDS : FieldProvider) (now lat0 lon0 hours : R) (n : Z)
  (windage diff_m2s : R) (backward : bool) (seed : option N) :
  (forall (j : nat) (st : Loop.t),
      (1 <= j)%nat ->
      state_after default_rng FIELDS now lat0 lon0 n windage diff_m2s
        backward seed j = Ok st ->
      ensemble_in_Domain st)
  /\
  (forall r : Result,
      (1 <= steps_of hours)%Z ->
      simulate_particles default_rng FIELDS now lat0 lon0 hours n windage
        diff_m2s backward seed = Ok r ->
      Forall in_Domain (final_cloud r)).
Proof.
  split.
  - intros j st Hj Hafter. exact (state_after_in_Domain _ _ _ _ _ _ _ _ _ _ j st Hj Hafter).
  - intros r Hsteps. rewrite simulate_particles_state_after.
    destruct (state_after _ _ _ _ _ _ _ _ _ _ _) as [st|e] eqn:Hafter;
      [|discriminate].
    intros [= <-].
    assert (Hin : ensemble_in_Domain st).
    { apply (state_after_in_Domain _ _ _ _ _ _ _ _ _ _ _ st) in Hafter;
        [exact Hafter | lia]. }
    destruct Hin as [Hlat Hlon]. simpl.
    apply Forall_combine_in_Domain; assumption.
Qed.

(** A backward run of one particle over an hour: it completes, and both the
    state after the first pass and the final cloud are in the Domain. *)
Lemma clamped_after_every_step_witness :
  exists (st : Loop.t) (r : Result),
    (state_after test_rng NO_DATA 0 23.6 58.5 1 0.02 0.5 true (Some 42%N) 1
     = Ok st /\ ensemble_in_Domain st)
    /\ (simulate_particles test_rng NO_DATA 0 23.6 58.5 1 1 0.02 0.5 true
          (Some 42%N) = Ok r
        /\ Forall in_Domain (final_cloud r)).
Proof.
  destruct (state_after_one_particle test_rng NO_DATA 0 23.6 58.5 1 0.02 0.5
              true (Some 42%N) 1 eq_refl) as (st & Hst & _).
  destruct (simulate_particles_one_particle test_rng NO_DATA 0 23.6 58.5 1 1
              0.02 0.5 true (Some 42%N) eq_refl) as (r & Hr).
  assert (Hsteps : (1 <= steps_of 1)%Z).
  { rewrite (steps_of_ticks 1 6); [lia|]. rewrite Rabs_pos_eq; lra. }
  exists st, r. split; split; try assumption.
  - exact (proj1 (clamped_after_every_step test_rng NO_DATA 0 23.6 58.5 1 1
                    0.02 0.5 true (Some 42%N)) 1%nat st (le_n 1) Hst).
  - exact (proj2 (clamped_after_every_step test_rng NO_DATA 0 23.6 58.5 1 1
                    0.02 0.5 true (Some 42%N)) r Hsteps Hr).
Defined.

(** Whatever the generator, a horizon shorter than one tick returns the
    jittered release point unclipped: released north of the Domain, a
    particle whose first deviate is below a thousand standard deviations
    is outside it. *)
Lemma zero_steps_final_cloud_not_clipped (default_rng : N -> Generator)
  (FIELDS : FieldProvider) (now : R) (seed : option N) :
  let g := seed_rng default_rng now seed in
  Rabs (deviates g (cursor g)) <= 1000 ->
  exists r,
    simulate_particles default_rng FIELDS now 30 58.5 0.1 1 0.02 0.5 false seed
    = Ok r
    /\ ~ Forall in_Domain (final_cloud r).
Proof.
  intros g Hdev.
  assert (Hsteps : steps_of 0.1 = 0%Z).
  { apply steps_of_short. rewrite Rabs_pos_eq; lra. }
  rewrite (simulate_particles_zero_steps default_rng FIELDS now 30 58.5 0.1 1
             0.02 0.5 false seed ltac:(lia) Hsteps).
  eexists. split; [reflexivity|]. fold g. simpl.
  intros Hall. inversion Hall as [|p ps [Hlat _] _]. simpl in Hlat.
  rewrite Nat.add_0_r in Hlat.
  unfold Rabs in Hdev. destruct (Rcase_abs _); lra.
Qed.

(** C1 as stated fails on a run of zero steps: one particle released at
    latitude 30 with a horizon of 0.1 h comes back in the final cloud at
    latitude 30.001, north of [lat_max] = 26. *)
Lemma final_cloud_outside_Domain :
  exists r,
    simulate_particles test_rng NO_DATA 0 30 58.5 0.1 1 0.02 0.5 false
      (Some 42%N) = Ok r
    /\ ~ Forall in_Domain (final_cloud r).
Proof.
  apply zero_steps_final_cloud_not_clipped. simpl.
  rewrite Rabs_pos_eq; lra.
Qed.

(** ** The track of a run without steps *)

(** C9. A request whose step count is 0 returns, and its mean track is
    the one-point list holding the release coordinate. *)
Theorem zero_steps_mean_track (default_rng : N -> Generator)
  (FIELDS : FieldProvider) (now lat0 lon0 hours : R) (n : Z)
  (windage diff_m2s : R) (backward : bool) (seed : option N) :
  (0 <= n)%Z -> steps_of hours = 0%Z ->
  exists r,
    simulate_particles default_rng FIELDS now lat0 lon0 hours n windage
      diff_m2s backward seed = Ok r
    /\ mean_track r = [(lon0, lat0)].
Proof.
  intros Hn Hsteps.
  rewrite (simulate_particles_zero_steps default_rng FIELDS now lat0 lon0
             hours n windage diff_m2s backward seed Hn Hsteps).
  eexists. split; reflexivity.
Qed.

Lemma zero_steps_mean_track_witness :
  (0 <= 10)%Z /\ steps_of 0.1 = 0%Z
  /\ exists r,
       simulate_particles test_rng NO_DATA 0 23.6 58.5 0.1 10 0.02 0.5 false
         None = Ok r
       /\ mean_track r = [(58.5, 23.6)].
Proof.
  assert (Hn : (0 <= 10)%Z) by lia.
  assert (Hsteps : steps_of 0.1 = 0%Z).
  { apply steps_of_short. rewrite Rabs_pos_eq; lra. }
  split; [exact Hn|]. split; [exact Hsteps|].
  exact (zero_steps_mean_track test_rng NO_DATA 0 23.6 58.5 0.1 10 0.02 0.5
           false None Hn Hsteps).
Defined.

(** ** Determinism *)

Lemma seed_rng_explicit (default_rng : N -> Generator) (now : R) (s : N) :
  seed_rng default_rng now (Some s) = default_rng s.
Proof. reflexivity. Qed.

(** C3. Two runs of the same request with the same explicit seed, at
    whatever times [now1] and [now2] they are made, have the same outcome:
    the same mean track and the same final cloud. *)
Theorem same_seed_same_run (default_rng : N -> Generator)
  (FIELDS : FieldProvider) (now1 now2 lat0 lon0 hours : R) (n : Z)
  (windage diff_m2s : R) (backward : bool) (s : N) :
  simulate_particles default_rng FIELDS now1 lat0 lon0 hours n windage
    diff_m2s backward (Some s)
  = simulate_particles default_rng FIELDS now2 lat0 lon0 hours n windage
      diff_m2s backward (Some s).
Proof.
  unfold simulate_particles, initial_state.
  rewrite !seed_rng_explicit. reflexivity.
Qed.

(** Without a seed the clock picks the stream: two runs a millisecond apart
    return different clouds. *)
Lemma unseeded_runs_differ :
  simulate_particles test_rng NO_DATA 0 23.6 58.5 0 1 0.02 0.5 false None
  <> simulate_particles test_rng NO_DATA 0.001 23.6 58.5 0 1 0.02 0.5 false
       None.
Proof.
  assert (Hsteps : steps_of 0 = 0%Z).
  { apply steps_of_short. rewrite Rabs_R0. lra. }
  assert (Hn : (0 <= 1)%Z) by lia.
  rewrite (simulate_particles_zero_steps test_rng NO_DATA 0 23.6 58.5 0 1 0.02
             0.5 false None Hn Hsteps).
  rewrite (simulate_particles_zero_steps test_rng NO_DATA 0.001 23.6 58.5 0 1
             0.02 0.5 false None Hn Hsteps).
  unfold seed_rng.
  replace (0 * 1000) with (IZR 0) by lra.
  replace (0.001 * 1000) with (IZR 1) by lra.
  rewrite !py_int_IZR. simpl.
  intros [= Hlon Hlat]. lra.
Qed.

(** ** The random walk *)

Lemma sqrt_1e12 : sqrt 1e-12 = 1e-6.
Proof.
  replace 1e-12 with (1e-6 * 1e-6) by lra. apply sqrt_square. lra.
Qed.

Lemma sigma_of_floor (diff_m2s dt_sec : R) :
  2 * diff_m2s * Rabs dt_sec <= 1e-12 -> sigma_of diff_m2s dt_sec = 1e-6.
Proof.
  intros Hsmall. unfold sigma_of.
  rewrite Rmax_right by lra. apply sqrt_1e12.
Qed.

Lemma sigma_of_sqrt (diff_m2s dt_sec : R) :
  1e-12 <= 2 * diff_m2s * Rabs dt_sec ->
  sigma_of diff_m2s dt_sec = sqrt (2 * diff_m2s * Rabs dt_sec).
Proof.
  intros Hlarge. unfold sigma_of.
  rewrite Rmax_left by lra. f_equal. lra.
Qed.

(** The spread does not see the direction of time. *)
Lemma sigma_of_direction (diff_m2s : R) :
  sigma_of diff_m2s (dt_sec_of true) = sigma_of diff_m2s (dt_sec_of false).
Proof. unfold sigma_of, dt_sec_of. rewrite Rabs_Ropp. reflexivity. Qed.

(** C2, as the code has it. The standard deviation of a pass is
    sqrt(max(2 * diffusivity * |dt|, 1e-12)): it is sqrt(2 * diffusivity *
    |dt|) from 1e-12 upward and 1e-6 m below, in particular for
    diffusivity 0. A pass over a one-particle cloud adds the two deviates
    scaled by it to the advective displacement [u*dt], [v*dt], in meters,
    then converts the sums to degrees and clips. *)
Theorem random_walk_step (FIELDS : FieldProvider)
  (windage diff_m2s dt_sec : R) (k : nat) (la lo : R) (g : Generator)
  (acc : nat) (track : list (R * R)) :
  let tsec := 0.0 + INR k * dt_sec in
  let u := fst (current_uv FIELDS la lo tsec)
           + fst (wind10m_uv FIELDS la lo tsec) * windage in
  let v := snd (current_uv FIELDS la lo tsec)
           + snd (wind10m_uv FIELDS la lo tsec) * windage in
  let sigma := sigma_of diff_m2s dt_sec in
  let dx_rand := 0.0 + sigma * deviates g (cursor g) in
  let dy_rand := 0.0 + sigma * deviates g (S (cursor g)) in
  (sigma = sqrt (Rmax (2 * diff_m2s * Rabs dt_sec) 1e-12)
   /\ (1e-12 <= 2 * diff_m2s * Rabs dt_sec ->
       sigma = sqrt (2 * diff_m2s * Rabs dt_sec))
   /\ (2 * diff_m2s * Rabs dt_sec <= 1e-12 -> sigma = 1e-6))
  /\
  exists st',
    step FIELDS 1 windage diff_m2s dt_sec k
      {| Loop.lat := [la]; Loop.lon := [lo]; Loop.rng := g;
         Loop.sample_accum := acc; Loop.mean_track := track |} = Ok st'
    /\ Loop.lon st'
       = [clip1 (lon_min DOMAIN) (lon_max DOMAIN)
            (lo + (u * dt_sec + dx_rand)
                  / (meters_per_deg_lat * cos (radians la) + 1e-9))]
    /\ Loop.lat st'
       = [clip1 (lat_min DOMAIN) (lat_max DOMAIN)
            (la + (v * dt_sec + dy_rand) / meters_per_deg_lat)].
Proof.
  intros tsec u v sigma dx_rand dy_rand. split.
  - repeat split.
    + unfold sigma, sigma_of. do 2 f_equal. lra.
    + apply sigma_of_sqrt.
    + apply sigma_of_floor.
  - open_step. simpl.
    destruct (record_sample _ _ _ _) as [acc' track'].
    eexists. split; [reflexivity|]. simpl.
    rewrite !Nat.add_0_r, Nat.add_1_r. split; reflexivity.
Qed.

Lemma random_walk_step_witness :
  (1e-12 <= 2 * 0.5 * Rabs 600
   /\ sigma_of 0.5 600 = sqrt (2 * 0.5 * Rabs 600))
  /\ (2 * 0 * Rabs 600 <= 1e-12 /\ sigma_of 0 600 = 1e-6).
Proof.
  assert (Hlarge : 1e-12 <= 2 * 0.5 * Rabs 600)
    by (rewrite Rabs_pos_eq; lra).
  assert (Hsmall : 2 * 0 * Rabs 600 <= 1e-12) by lra.
  split; split; try assumption.
  - exact (proj1 (proj2 (proj1 (random_walk_step NO_DATA 0.02 0.5 600 0 23.6
                                  58.5 (test_rng 42) 0 []))) Hlarge).
  - exact (proj2 (proj2 (proj1 (random_walk_step NO_DATA 0.02 0 600 0 23.6
                                  58.5 (test_rng 42) 0 []))) Hsmall).
Defined.

(** C2 as stated fails at diffusivity 0: the standard deviation of a tick
    is 1e-6 m, not sqrt(2 * 0 * |dt|) = 0. *)
Lemma zero_diffusivity_sigma :
  sigma_of 0 DT_SECONDS <> sqrt (2 * 0 * Rabs DT_SECONDS).
Proof.
  rewrite sigma_of_floor by lra.
  replace (2 * 0 * Rabs DT_SECONDS) with 0 by lra.
  rewrite sqrt_0. lra.
Qed.

(** ** Requests that are not checked *)

(** C4, as the code has it. The engine checks nothing itself. A negative
    particle count makes the allocation of the cloud raise before the loop
    is reached; for every other count the cloud is built whatever the
    horizon, a horizon and its negation give the same number of steps, and
    a request of zero steps returns a result. *)
Theorem configuration_not_checked (default_rng : N -> Generator)
  (FIELDS : FieldProvider) (now lat0 lon0 hours : R) (n : Z)
  (windage diff_m2s : R) (backward : bool) (seed : option N) :
  ((n < 0)%Z ->
   initial_state default_rng now lat0 lon0 n seed = Raise ValueError
   /\ simulate_particles default_rng FIELDS now lat0 lon0 hours n windage
        diff_m2s backward seed = Raise ValueError)
  /\ ((0 <= n)%Z -> succeeds (initial_state default_rng now lat0 lon0 n seed))
  /\ steps_of (- hours) = steps_of hours
  /\ ((0 <= n)%Z -> steps_of hours = 0%Z ->
      succeeds (simulate_particles default_rng FIELDS now lat0 lon0 hours n
                  windage diff_m2s backward seed)).
Proof.
  split; [|split; [|split]].
  - intros Hn. split.
    + now apply initial_state_negative.
    + now apply simulate_particles_negative.
  - intros Hn. rewrite (initial_state_nonneg _ _ _ _ _ _ Hn).
    eexists. reflexivity.
  - apply steps_of_opp.
  - intros Hn Hsteps.
    rewrite (simulate_particles_zero_steps default_rng FIELDS now lat0 lon0
               hours n windage diff_m2s backward seed Hn Hsteps).
    eexists. reflexivity.
Qed.

Lemma configuration_not_checked_witness :
  ((-5 < 0)%Z /\
   simulate_particles test_rng NO_DATA 0 23.6 58.5 48 (-5) 0.02 0.5 false None
   = Raise ValueError)
  /\ ((0 <= 0)%Z /\ steps_of 0 = 0%Z /\
      succeeds (simulate_particles test_rng NO_DATA 0 23.6 58.5 0 0 0.02 0.5
                  false None)).
Proof.
  assert (Hneg : (-5 < 0)%Z) by lia.
  assert (Hzero : (0 <= 0)%Z) by lia.
  assert (Hsteps : steps_of 0 = 0%Z).
  { apply steps_of_short. rewrite Rabs_R0. lra. }
  split; split; try assumption.
  - exact (proj2 (proj1 (configuration_not_checked test_rng NO_DATA 0 23.6
                           58.5 48 (-5) 0.02 0.5 false None) Hneg)).
  - split; [exact Hsteps|].
    exact (proj2 (proj2 (proj2 (configuration_not_checked test_rng NO_DATA 0
                                  23.6 58.5 0 0 0.02 0.5 false None)))
             Hzero Hsteps).
Defined.

(** C4 as stated fails on a negative horizon: the forward route called for
    -1 h with one particle is not refused; the loop runs its six passes and
    the track that comes back holds the two centroids sampled on the way. *)
Lemma negative_horizon_is_integrated :
  exists track,
    api_forward test_rng NO_DATA 0 23.6 58.5 (-1) 1 0.02 0.5 = Ok track
    /\ length track = 2%nat.
Proof.
  destruct (simulate_particles_one_particle test_rng NO_DATA 0 23.6 58.5 (-1)
              1 0.02 0.5 false None eq_refl) as [r Hr].
  exists (mean_track r). unfold api_forward. rewrite Hr.
  split; [reflexivity|].
  destruct (simulate_particles_result _ _ _ _ _ _ _ _ _ _ _ r Hr)
    as (_ & Hlen & _).
  rewrite Hlen. rewrite (steps_of_ticks (-1) 6); [reflexivity|].
  rewrite Rabs_left; lra.
Qed.

(** ** Runs of more than one particle *)

(** C7 at two particles and a horizon of one hour: six steps are due, and
    in either direction the first pass through the loop body raises
    [TypeError], so that none of the six is carried out. *)
Lemma two_particles_no_step_completes (default_rng : N -> Generator)
  (FIELDS : FieldProvider) (now : R) (backward : bool) (seed : option N) :
  steps_of 1 = 6%Z
  /\ state_after default_rng FIELDS now 23.6 58.5 2 0.02 0.5 backward seed 1
     = Raise TypeError
  /\ simulate_particles default_rng FIELDS now 23.6 58.5 1 2 0.02 0.5
       backward seed = Raise TypeError.
Proof.
  assert (Hsteps : steps_of 1 = 6%Z).
  { apply steps_of_ticks. rewrite Rabs_pos_eq; lra. }
  split; [exact Hsteps|]. split.
  - apply state_after_TypeError; lia.
  - apply simulate_particles_TypeError; lia.
Qed.

(** C8 at the default request (8000 particles, 48 hours): the engine raises
    [TypeError] and returns neither a track nor a cloud. *)
Lemma default_request_raises (default_rng : N -> Generator)
  (FIELDS : FieldProvider) (now : R) (backward : bool) (seed : option N) :
  simulate_particles default_rng FIELDS now DEFAULT_LAT DEFAULT_LON
    DEFAULT_HOURS DEFAULT_PARTICLES 0.02 0.5 backward seed
  = Raise TypeError.
Proof.
  assert (Hsteps : steps_of DEFAULT_HOURS = 288%Z).
  { apply steps_of_ticks. unfold DEFAULT_HOURS. rewrite Rabs_pos_eq; lra. }
  apply simulate_particles_TypeError; unfold DEFAULT_PARTICLES; lia.
Qed.

(** C10 at two particles and a horizon of a quarter of an hour: the step
    count is 1, below the sampling period, and the engine raises
    [TypeError] instead of returning the release point as its track. *)
Lemma short_run_of_two_particles_raises (default_rng : N -> Generator)
  (FIELDS : FieldProvider) (now : R) (backward : bool) (seed : option N) :
  steps_of 0.25 = 1%Z
  /\ simulate_particles default_rng FIELDS now 23.6 58.5 0.25 2 0.02 0.5
       backward seed = Raise TypeError.
Proof.
  assert (Hsteps : steps_of 0.25 = 1%Z).
  { apply steps_of_between. rewrite Rabs_pos_eq; lra. }
  split; [exact Hsteps|].
  apply simulate_particles_TypeError; lia.
Qed.

(** X2. Whatever the request, a cloud of no particle or of several raises
    [TypeError] in the first pass that is due. *)
Theorem many_particles_raise (default_rng : N -> Generator)
  (FIELDS : FieldProvider) (now lat0 lon0 hours : R) (n : Z)
  (windage diff_m2s : R) (backward : bool) (seed : option N) :
  (0 <= n)%Z -> n <> 1%Z -> (1 <= steps_of hours)%Z ->
  simulate_particles default_rng FIELDS now lat0 lon0 hours n windage diff_m2s
    backward seed = Raise TypeError.
Proof. apply simulate_particles_TypeError. Qed.

Lemma many_particles_raise_witness :
  ((0 <= 10)%Z /\ 10%Z <> 1%Z /\ (1 <= steps_of 1)%Z)
  /\ simulate_particles test_rng NO_DATA 0 23.6 58.5 1 10 0 0 false (Some 42%N)
     = Raise TypeError.
Proof.
  assert (Hn : (0 <= 10)%Z) by lia.
  assert (Hmany : 10%Z <> 1%Z) by lia.
  assert (Hsteps : (1 <= steps_of 1)%Z).
  { rewrite (steps_of_ticks 1 6); [lia|]. rewrite Rabs_pos_eq; lra. }
  split; [repeat split; assumption|].
  exact (many_particles_raise test_rng NO_DATA 0 23.6 58.5 1 10 0 0 false
           (Some 42%N) Hn Hmany Hsteps).
Defined.

(** ** Step count and tick *)

(** X1. The number of passes is floor(|hours*3600/DT_SECONDS|) and the tick is
    +DT_SECONDS forward, -DT_SECONDS backward; nothing else of a pass sees
    the direction (the spread uses |dt|). With one particle each pass [j]
    below any count completes, taking the state after [j] passes to the
    state after [j + 1] at the signed tick. *)
Theorem step_count_and_tick (default_rng : N -> Generator)
  (FIELDS : FieldProvider) (now lat0 lon0 hours : R)
  (windage diff_m2s : R) (backward : bool) (seed : option N) :
  steps_of hours = Zfloor (Rabs (hours * 3600 / DT_SECONDS))
  /\ dt_sec_of backward = (if backward then - DT_SECONDS else DT_SECONDS)
  /\ dt_sec_of true = - dt_sec_of false
  /\ sigma_of diff_m2s (dt_sec_of backward) = sigma_of diff_m2s DT_SECONDS
  /\ forall j : nat,
       exists st st',
         state_after default_rng FIELDS now lat0 lon0 1 windage diff_m2s
           backward seed j = Ok st
         /\ step FIELDS 1 windage diff_m2s (dt_sec_of backward) j st = Ok st'
         /\ state_after default_rng FIELDS now lat0 lon0 1 windage diff_m2s
              backward seed (S j) = Ok st'.
Proof.
  split; [apply steps_of_floor|]. split; [reflexivity|].
  split; [reflexivity|]. split.
  - destruct backward; [apply sigma_of_direction | reflexivity].
  - intros j.
    destruct (state_after_one_particle default_rng FIELDS now lat0 lon0 1
                windage diff_m2s backward seed j eq_refl) as (st & Hst & _).
    destruct (state_after_one_particle default_rng FIELDS now lat0 lon0 1
                windage diff_m2s backward seed (S j) eq_refl)
      as (st' & Hst' & _).
    exists st, st'. split; [exact Hst|]. split; [|exact Hst'].
    rewrite state_after_S, Hst in Hst'. exact Hst'.
Qed.

(** ** The shape of a returned result *)

(** X3. A result that comes back has one (lon, lat) pair per particle and a
    track of max(1, floor(s/3)) points for a step count [s], which is the
    release point alone when [s] is below the sampling period; and a
    request for one particle always comes back. *)
Theorem returned_result_shape (default_rng : N -> Generator)
  (FIELDS : FieldProvider) (now lat0 lon0 hours : R) (n : Z)
  (windage diff_m2s : R) (backward : bool) (seed : option N) :
  (forall r : Result,
      simulate_particles default_rng FIELDS now lat0 lon0 hours n windage
        diff_m2s backward seed = Ok r ->
      let s := Z.to_nat (steps_of hours) in
      length (final_cloud r) = Z.to_nat n
      /\ length (mean_track r) = Nat.max 1 (s / SAMPLE_EVERY_STEPS)
      /\ ((s < SAMPLE_EVERY_STEPS)%nat -> mean_track r = [(lon0, lat0)]))
  /\ (n = 1%Z ->
      succeeds (simulate_particles default_rng FIELDS now lat0 lon0 hours n
                  windage diff_m2s backward seed)).
Proof.
  split.
  - intros r Hr. exact (simulate_particles_result _ _ _ _ _ _ _ _ _ _ _ r Hr).
  - apply simulate_particles_one_particle.
Qed.

Lemma returned_result_shape_witness :
  exists r,
    simulate_particles test_rng NO_DATA 0 23.6 58.5 0.25 1 0.02 0.5 false
      (Some 42%N) = Ok r
    /\ length (final_cloud r) = 1%nat
    /\ mean_track r = [(58.5, 23.6)].
Proof.
  destruct (proj2 (returned_result_shape test_rng NO_DATA 0 23.6 58.5 0.25 1
                     0.02 0.5 false (Some 42%N)) eq_refl) as [r Hr].
  destruct (proj1 (returned_result_shape test_rng NO_DATA 0 23.6 58.5 0.25 1
                     0.02 0.5 false (Some 42%N)) r Hr) as (Hcloud & _ & Hshort).
  exists r. split; [exact Hr|]. split; [exact Hcloud|].
  apply Hshort.
  rewrite (steps_of_between 0.25 1) by (rewrite Rabs_pos_eq; lra).
  unfold SAMPLE_EVERY_STEPS. simpl. lia.
Defined.

(** * Further properties of app.py *)

(** ** The seed taken from the clock *)

Lemma land_32_bits (z : Z) : Z.land z 0xffffffff = (z mod 2 ^ 32)%Z.
Proof. change 0xffffffff%Z with (Z.ones 32). apply Z.land_ones. lia. Qed.

(** X4. Without a seed the generator is seeded with the clock's
    milliseconds modulo 2^32, a number below 2^32; so two calls whose
    clocks are 2^32 ms (4294967.296 s) apart are given the same stream. *)
Theorem seed_rng_from_clock (default_rng : N -> Generator) (now : R) :
  0 <= now ->
  (exists s : N,
      (s < 2 ^ 32)%N
      /\ Z.of_N s = (Zfloor (now * 1000) mod 2 ^ 32)%Z
      /\ seed_rng default_rng now None = default_rng s)
  /\ seed_rng default_rng (now + 4294967.296) None
     = seed_rng default_rng now None.
Proof.
  intros Hnow.
  assert (Hms : py_int (now * 1000) = Zfloor (now * 1000))
    by (apply py_int_nonneg; lra).
  split.
  - exists (Z.to_N (Zfloor (now * 1000) mod 2 ^ 32)).
    pose proof (Z.mod_pos_bound (Zfloor (now * 1000)) (2 ^ 32) ltac:(lia)).
    repeat split.
    + lia.
    + lia.
    + unfold seed_rng. rewrite Hms, land_32_bits. reflexivity.
  - unfold seed_rng. f_equal. f_equal.
    rewrite !land_32_bits.
    replace ((now + 4294967.296) * 1000) with (now * 1000 + IZR (2 ^ 32))
      by (simpl; lra).
    rewrite (py_int_nonneg (now * 1000 + IZR (2 ^ 32))) by (simpl; lra).
    rewrite Hms, Zfloor_addz.
    rewrite <- (Z.mul_1_l (2 ^ 32)) at 1. apply Z.mod_add. lia.
Qed.

Lemma seed_rng_from_clock_witness :
  0 <= 1.5
  /\ seed_rng test_rng (1.5 + 4294967.296) None = seed_rng test_rng 1.5 None.
Proof.
  assert (Hnow : 0 <= 1.5) by lra.
  split; [exact Hnow|].
  exact (proj2 (seed_rng_from_clock test_rng 1.5 Hnow)).
Defined.

(** ** Buoy status *)

Lemma gt_true (x y : R) : gt x y = true <-> y < x.
Proof. unfold gt. destruct (Rlt_dec y x); split; intros; try lra; congruence. Qed.

Lemma gt_false (x y : R) : gt x y = false <-> x <= y.
Proof. unfold gt. destruct (Rlt_dec y x); split; intros; try lra; congruence. Qed.

Lemma synth_status_cases (turbidity ph ec : R) :
  (synth_status turbidity ph ec = "ALERT"%string
   /\ (10 < turbidity \/ 9 < ph \/ 40 < ec))
  \/ (synth_status turbidity ph ec = "WARNING"%string
      /\ (turbidity <= 10 /\ ph <= 9 /\ ec <= 40)
      /\ (7.5 < turbidity \/ 8.5 < ph \/ 36 < ec))
  \/ (synth_status turbidity ph ec = "OK"%string
      /\ turbidity <= 7.5 /\ ph <= 8.5 /\ ec <= 36).
Proof.
  unfold synth_status, gt.
  destruct (Rlt_dec 10 turbidity); [left; split; [reflexivity | lra]|].
  destruct (Rlt_dec 9 ph); [left; split; [reflexivity | lra]|].
  destruct (Rlt_dec 40 ec); [left; split; [reflexivity | lra]|].
  right.
  destruct (Rlt_dec 7.5 turbidity);
    [left; split; [reflexivity | split; lra]|].
  destruct (Rlt_dec 8.5 ph); [left; split; [reflexivity | split; lra]|].
  destruct (Rlt_dec 36 ec); [left; split; [reflexivity | split; lra]|].
  right. split; [reflexivity | lra].
Qed.

(** X5. The status is "ALERT" exactly when a reading exceeds its upper
    threshold (turbidity 10, pH 9, conductivity 40), "OK" exactly when all
    three are at or below the lower ones (7.5, 8.5, 36), and "WARNING"
    otherwise; no reading, however low, raises the status. *)
Theorem synth_status_levels (turbidity ph ec : R) :
  (synth_status turbidity ph ec = "ALERT"%string
   <-> 10 < turbidity \/ 9 < ph \/ 40 < ec)
  /\ (synth_status turbidity ph ec = "OK"%string
      <-> turbidity <= 7.5 /\ ph <= 8.5 /\ ec <= 36)
  /\ (synth_status turbidity ph ec = "WARNING"%string
      <-> (turbidity <= 10 /\ ph <= 9 /\ ec <= 40)
          /\ (7.5 < turbidity \/ 8.5 < ph \/ 36 < ec)).
Proof.
  destruct (synth_status_cases turbidity ph ec)
    as [[-> H]|[[-> H]|[-> H]]];
    repeat split; intros; try discriminate; try reflexivity; try lra;
    try (exfalso; intuition lra).
Qed.

(** X6. Raising readings never lowers the status: if each of turbidity,
    pH and conductivity is at least what it was, the new status is at
    least as severe (OK < WARNING < ALERT). *)
Theorem synth_status_monotone (t1 p1 e1 t2 p2 e2 : R) :
  t1 <= t2 -> p1 <= p2 -> e1 <= e2 ->
  (severity (synth_status t1 p1 e1) <= severity (synth_status t2 p2 e2))%nat.
Proof.
  intros Ht Hp He.
  destruct (synth_status_cases t1 p1 e1) as [[-> H1]|[[-> H1]|[-> H1]]];
    destruct (synth_status_cases t2 p2 e2) as [[-> H2]|[[-> H2]|[-> H2]]];
    vm_compute; try lia; exfalso; intuition lra.
Qed.

Lemma synth_status_monotone_witness :
  (5.5 <= 8.2 /\ 7.9 <= 8.1 /\ 32 <= 36)
  /\ (severity (synth_status 5.5 7.9 32)
      <= severity (synth_status 8.2 8.1 36))%nat.
Proof.
  assert (Ht : 5.5 <= 8.2) by lra.
  assert (Hp : 7.9 <= 8.1) by lra.
  assert (He : 32 <= 36) by lra.
  split; [repeat split; assumption|].
  exact (synth_status_monotone 5.5 7.9 32 8.2 8.1 36 Ht Hp He).
Defined.

(** ** Great-circle distance *)

Lemma radians_minus (x y : R) : radians (x - y) = radians x - radians y.
Proof. unfold radians. lra. Qed.

Lemma sin_sqr_range (x : R) : 0 <= sin x ^ 2 <= 1.
Proof. pose proof (SIN_bound x). nra. Qed.

(** The product of the two cosines against the half-angle sine of the
    latitude difference. *)
Lemma cos_product_range (a b : R) :
  - sin ((b - a) / 2) ^ 2 <= cos a * cos b <= 1 - sin ((b - a) / 2) ^ 2.
Proof.
  pose proof (cos_minus b a) as Hminus.
  pose proof (cos_plus b a) as Hplus.
  pose proof (COS_bound (b + a)) as Hsum.
  pose proof (cos_2a_sin ((b - a) / 2)) as Hhalf.
  replace (2 * ((b - a) / 2)) with (b - a) in Hhalf by lra.
  nra.
Qed.

(** The haversine term lies in [0, 1] for all coordinates. *)
Lemma haversine_term_range (lat1 lon1 lat2 lon2 : R) :
  0 <= sin (radians (lat2 - lat1) / 2) ^ 2
       + cos (radians lat1) * cos (radians lat2)
         * sin (radians (lon2 - lon1) / 2) ^ 2
    <= 1.
Proof.
  rewrite (radians_minus lat2 lat1).
  pose proof (cos_product_range (radians lat1) (radians lat2)) as Hcos.
  pose proof (sin_sqr_range ((radians lat2 - radians lat1) / 2)) as Hlat.
  pose proof (sin_sqr_range (radians (lon2 - lon1) / 2)) as Hlon.
  nra.
Qed.

Lemma asin_nonneg (x : R) : 0 <= x -> 0 <= asin x.
Proof.
  intros Hx. pose proof PI_RGT_0.
  destruct (Req_dec x 0) as [->|Hneq]; [rewrite asin_0; lra|].
  unfold asin. repeat destruct (Rle_dec _ _); try lra.
  assert (Hroot : 0 < sqrt (1 - x²)).
  { apply sqrt_lt_R0. unfold Rsqr. nra. }
  assert (Harg : 0 < x / sqrt (1 - x²)).
  { apply Rdiv_lt_0_compat; lra. }
  pose proof (atan_increasing 0 _ Harg) as Hinc. rewrite atan_0 in Hinc. lra.
Qed.

(** X7. [haversine_km] returns for all coordinates, a distance between 0
    and half the circumference 6371 * pi km; it is 0 from a point to
    itself and the same in both directions. *)
Theorem haversine_km_distance (lat1 lon1 lat2 lon2 : R) :
  (exists d, haversine_km lat1 lon1 lat2 lon2 = Ok d /\ 0 <= d <= 6371 * PI)
  /\ haversine_km lat1 lon1 lat1 lon1 = Ok 0
  /\ haversine_km lat2 lon2 lat1 lon1 = haversine_km lat1 lon1 lat2 lon2.
Proof.
  split; [|split].
  - unfold haversine_km, math_sqrt, math_asin.
    pose proof (haversine_term_range lat1 lon1 lat2 lon2) as Ha.
    set (a := sin (radians (lat2 - lat1) / 2) ^ 2
              + cos (radians lat1) * cos (radians lat2)
                * sin (radians (lon2 - lon1) / 2) ^ 2) in *.
    assert (Hroot : 0 <= sqrt a <= 1).
    { split; [apply sqrt_pos|]. rewrite <- sqrt_1. apply sqrt_le_1; lra. }
    destruct (Rlt_dec a 0); [lra|]. simpl.
    destruct (Rlt_dec (sqrt a) (-1)); [lra|].
    destruct (Rlt_dec 1 (sqrt a)); [lra|]. simpl.
    eexists. split; [reflexivity|].
    pose proof (asin_nonneg (sqrt a) (proj1 Hroot)).
    pose proof (asin_bound (sqrt a)). lra.
  - unfold haversine_km, math_sqrt, math_asin.
    replace (sin (radians (lat1 - lat1) / 2) ^ 2
             + cos (radians lat1) * cos (radians lat1)
               * sin (radians (lon1 - lon1) / 2) ^ 2) with 0.
    + destruct (Rlt_dec 0 0); [lra|]. simpl. rewrite sqrt_0.
      destruct (Rlt_dec 0 (-1)); [lra|].
      destruct (Rlt_dec 1 0); [lra|]. simpl.
      rewrite asin_0. f_equal. lra.
    + replace (radians (lat1 - lat1) / 2) with 0 by (unfold radians; lra).
      replace (radians (lon1 - lon1) / 2) with 0 by (unfold radians; lra).
      rewrite sin_0. ring.
  - unfold haversine_km.
    replace (radians (lat1 - lat2) / 2) with (- (radians (lat2 - lat1) / 2))
      by (unfold radians; lra).
    replace (radians (lon1 - lon2) / 2) with (- (radians (lon2 - lon1) / 2))
      by (unfold radians; lra).
    rewrite !sin_neg.
    replace ((- sin (radians (lat2 - lat1) / 2)) ^ 2
             + cos (radians lat2) * cos (radians lat1)
               * (- sin (radians (lon2 - lon1) / 2)) ^ 2)
      with (sin (radians (lat2 - lat1) / 2) ^ 2
            + cos (radians lat1) * cos (radians lat2)
              * sin (radians (lon2 - lon1) / 2) ^ 2) by ring.
    reflexivity.
Qed.

(** ** The synthetic fields *)


Lemma radians_60 : radians 60.0 = PI / 3.
Proof. unfold radians. lra. Qed.

(** X9. The synthetic wind is the same everywhere: at time [tsec] it blows
    at a speed between 3 and 5 m/s on the fixed bearing of 60 degrees,
    with eastward component speed/2 and northward component
    speed*sqrt(3)/2, both positive. *)
Theorem uv_wind10m_speed_and_bearing (self : SyntheticFields)
  (lat lon tsec : R) :
  let speed := 4.0 + 1.0 * sin (2 * PI * tsec / 86400) in
  3 <= speed <= 5
  /\ uv_wind10m self lat lon tsec = (speed / 2, speed * sqrt 3 / 2)
  /\ 1.5 <= fst (uv_wind10m self lat lon tsec) <= 2.5
  /\ 0 < snd (uv_wind10m self lat lon tsec)
  /\ fst (uv_wind10m self lat lon tsec) ^ 2
     + snd (uv_wind10m self lat lon tsec) ^ 2 = speed ^ 2.
Proof.
  intros speed.
  pose proof (SIN_bound (2 * PI * tsec / 86400)) as Hst.
  assert (Hspeed : 3 <= speed <= 5) by (unfold speed; lra).
  assert (Heq : uv_wind10m self lat lon tsec = (speed / 2, speed * sqrt 3 / 2)).
  { unfold uv_wind10m. cbv zeta. fold speed.
    rewrite radians_60, cos_PI3, sin_PI3. f_equal; lra. }
  assert (Hroot : 0 < sqrt 3) by (apply sqrt_lt_R0; lra).
  assert (Hsq : sqrt 3 * sqrt 3 = 3) by (apply sqrt_sqrt; lra).
  split; [exact Hspeed|]. split; [exact Heq|].
  rewrite Heq. cbn [fst snd]. repeat split; try lra; nra.
Qed.

Lemma sin_day (tsec : R) :
  sin (2 * PI * (tsec + 86400) / 86400) = sin (2 * PI * tsec / 86400).
Proof.
  replace (2 * PI * (tsec + 86400) / 86400)
    with (2 * PI * tsec / 86400 + 2 * PI) by field.
  rewrite sin_plus, sin_2PI, cos_2PI. ring.
Qed.

Lemma cos_day (tsec : R) :
  cos (2 * PI * (tsec + 86400) / 86400) = cos (2 * PI * tsec / 86400).
Proof.
  replace (2 * PI * (tsec + 86400) / 86400)
    with (2 * PI * tsec / 86400 + 2 * PI) by field.
  rewrite cos_plus, sin_2PI, cos_2PI. ring.
Qed.

(** X10. Both synthetic fields repeat after one day: the current and the
    wind at [tsec + 86400] are those at [tsec]; so is what a provider
    without datasets answers. *)
Theorem synthetic_fields_daily (self : SyntheticFields) (lat lon tsec : R) :
  uv_current self lat lon (tsec + 86400) = uv_current self lat lon tsec
  /\ uv_wind10m self lat lon (tsec + 86400) = uv_wind10m self lat lon tsec
  /\ current_uv NO_DATA lat lon (tsec + 86400) = current_uv NO_DATA lat lon tsec
  /\ wind10m_uv NO_DATA lat lon (tsec + 86400)
     = wind10m_uv NO_DATA lat lon tsec.
Proof.
  assert (Hcur : forall s,
             uv_current s lat lon (tsec + 86400) = uv_current s lat lon tsec).
  { intros s. unfold uv_current. rewrite sin_day, cos_day. reflexivity. }
  assert (Hwind : forall s,
             uv_wind10m s lat lon (tsec + 86400) = uv_wind10m s lat lon tsec).
  { intros s. unfold uv_wind10m. rewrite sin_day. reflexivity. }
  repeat split.
  - apply Hcur.
  - apply Hwind.
  - unfold current_uv. simpl. apply Hcur.
  - unfold wind10m_uv. simpl. apply Hwind.
Qed.

(** ** The overview of the currents *)

Lemma INR_below (i bound : nat) : (i < S bound)%nat -> 0 <= INR i <= INR bound.
Proof.
  intros Hi. split; [apply pos_INR | apply le_INR; lia].
Qed.

(** X11. The overview holds 80 arrows (8 rows of 10); every one sits
    strictly inside the Domain and carries the current the provider, the
    one the engine uses, gives at that point at time 0. *)
Theorem api_currents_arrows (FIELDS : FieldProvider) :
  length (api_currents FIELDS) = 80%nat
  /\ Forall
       (fun a =>
          lat_min DOMAIN < arrow_lat a < lat_max DOMAIN
          /\ lon_min DOMAIN < arrow_lon a < lon_max DOMAIN
          /\ (arrow_u a, arrow_v a)
             = current_uv FIELDS (arrow_lat a) (arrow_lon a) 0.0)
       (api_currents FIELDS).
Proof.
  split; [reflexivity|].
  apply Forall_forall. intros a Hin. unfold api_currents in Hin.
  apply in_flat_map in Hin. destruct Hin as (iy & Hiy & Hin).
  apply in_map_iff in Hin. destruct Hin as (ix & Ha & Hix).
  apply in_seq in Hiy. apply in_seq in Hix.
  pose proof (INR_below iy 7 ltac:(lia)) as Hy.
  pose proof (INR_below ix 9 ltac:(lia)) as Hx.
  assert (H7 : INR 7 = 7) by (simpl; lra).
  assert (H8 : INR 8 = 8) by (simpl; lra).
  assert (H9 : INR 9 = 9) by (simpl; lra).
  assert (H10 : INR 10 = 10) by (simpl; lra).
  rewrite H7 in Hy. rewrite H9 in Hx. rewrite H8, H10 in Ha.
  destruct (current_uv FIELDS _ _ _) as [u v] eqn:Huv.
  subst a. cbn [arrow_lat arrow_lon arrow_u arrow_v].
  rewrite Huv. cbn [lat_min lat_max lon_min lon_max DOMAIN].
  repeat split; lra.
Qed.

(** ** The sampler never overshoots *)

Lemma lerp_at_or_below (m : Z) (f : Z -> R) (x : R) :
  (1 <= m)%Z -> x <= 0 -> lerp m f x = f 0%Z.
Proof.
  intros Hm Hx. destruct (Rlt_dec x 0) as [Hlt|Hge].
  - now apply lerp_below.
  - replace x with (IZR 0) by lra. apply lerp_vertex; lia.
Qed.

Lemma lerp_at_or_above (m : Z) (f : Z -> R) (x : R) :
  (1 <= m)%Z -> IZR (m - 1) <= x -> lerp m f x = f (m - 1)%Z.
Proof.
  intros Hm Hx. destruct (Rlt_dec (IZR (m - 1)) x) as [Hlt|Hge].
  - now apply lerp_above.
  - replace x with (IZR (m - 1)) by lra. apply lerp_vertex; lia.
Qed.

Lemma lerp_between (m : Z) (f : Z -> R) (x lo hi : R) :
  (1 <= m)%Z ->
  (forall i, (0 <= i < m)%Z -> lo <= f i <= hi) ->
  lo <= lerp m f x <= hi.
Proof.
  intros Hm Hf.
  destruct (Rle_dec x 0) as [Hbelow|Hpos].
  { rewrite lerp_at_or_below by assumption. apply Hf. lia. }
  destruct (Rle_dec (IZR (m - 1)) x) as [Habove|Hinside].
  { rewrite lerp_at_or_above by assumption. apply Hf. lia. }
  pose proof (Zfloor_bound x) as Hfloor.
  assert (Hlo : (0 <= Zfloor x)%Z) by (apply Zfloor_lub; lra).
  assert (Hhi : (Zfloor x < m - 1)%Z).
  { apply lt_IZR. lra. }
  pose proof (Hf (lower m x) (lower_range m Hm x)) as Hf0.
  pose proof (Hf (upper m x) (upper_range m Hm x)) as Hf1.
  unfold lerp. cbv zeta.
  replace (lower m x) with (Zfloor x) in * by (unfold lower, clamp; lia).
  set (d := x - IZR (Zfloor x)).
  assert (Hd : 0 <= d < 1) by (unfold d; lra).
  nra.
Qed.

Lemma cell_between (arr2d : Array2) (lo hi : R) (y x : Z) :
  rectangular arr2d ->
  Forall (Forall (fun c => lo <= c <= hi)) arr2d ->
  (0 <= y < shape0 arr2d)%Z -> (0 <= x < shape1 arr2d)%Z ->
  lo <= cell arr2d y x <= hi.
Proof.
  intros Hrect Hall Hy Hx. unfold cell, shape0, shape1 in *.
  assert (Hrow : In (nth (Z.to_nat y) arr2d []) arr2d) by (apply nth_In; lia).
  rewrite Forall_forall in Hall. specialize (Hall _ Hrow).
  rewrite Forall_forall in Hall. apply Hall. apply nth_In.
  unfold rectangular in Hrect. rewrite Forall_forall in Hrect.
  rewrite (Hrect _ Hrow). lia.
Qed.

Lemma bilinear_interpolate_range (arr2d : Array2) (lo hi x y : R) :
  grid arr2d ->
  Forall (Forall (fun c => lo <= c <= hi)) arr2d ->
  exists v, bilinear_interpolate arr2d x y = Ok v /\ lo <= v <= hi.
Proof.
  intros Hgrid Hall. pose proof Hgrid as (Hrect & Hny & Hnx).
  rewrite bilinear_interpolate_lerp by exact Hgrid.
  eexists. split; [reflexivity|].
  apply lerp_between; [exact Hny|]. intros j Hj.
  apply lerp_between; [exact Hnx|]. intros i Hi.
  now apply cell_between.
Qed.

(** X12. On a grid all of whose cells lie between [lo] and [hi], the
    bilinear sampler answers a value between [lo] and [hi] at every query
    point, inside the grid or outside: it never overshoots the data. *)
Theorem bilinear_interpolate_between (arr2d : Array2) (lo hi : R) :
  grid arr2d ->
  Forall (Forall (fun c => lo <= c <= hi)) arr2d ->
  forall x y : R,
    exists v, bilinear_interpolate arr2d x y = Ok v /\ lo <= v <= hi.
Proof.
  intros Hgrid Hall x y. now apply bilinear_interpolate_range.
Qed.

Lemma grid22_cells : Forall (Forall (fun c => 1 <= c <= 4)) grid22.
Proof. unfold grid22. repeat constructor; lra. Qed.

Lemma bilinear_interpolate_between_witness :
  (grid grid22 /\ Forall (Forall (fun c => 1 <= c <= 4)) grid22)
  /\ exists v, bilinear_interpolate grid22 0.25 7 = Ok v /\ 1 <= v <= 4.
Proof.
  split; [split; [exact grid22_grid | exact grid22_cells]|].
  exact (bilinear_interpolate_between grid22 1 4 grid22_grid grid22_cells
           0.25 7).
Defined.

(** ** Coordinates and the index they resolve to *)

Lemma searchsorted_cons (a : R) (l : list R) (v : R) :
  searchsorted (a :: l) v
  = if Rlt_dec a v then (1 + searchsorted l v)%Z else searchsorted l v.
Proof.
  unfold searchsorted. cbn [filter]. destruct (Rlt_dec a v); [|reflexivity].
  cbn [length]. lia.
Qed.

Lemma searchsorted_range (l : list R) (v : R) :
  (0 <= searchsorted l v <= Z.of_nat (length l))%Z.
Proof.
  induction l as [|a l IH]; [unfold searchsorted; simpl; lia|].
  rewrite searchsorted_cons. destruct (Rlt_dec a v); simpl length; lia.
Qed.

Lemma searchsorted_none (l : list R) (v : R) :
  Forall (fun x => v <= x) l -> searchsorted l v = 0%Z.
Proof.
  induction 1 as [|a l Ha _ IH]; [reflexivity|].
  rewrite searchsorted_cons. destruct (Rlt_dec a v); [lra | exact IH].
Qed.

Lemma searchsorted_all (l : list R) (v : R) :
  Forall (fun x => x < v) l -> searchsorted l v = Z.of_nat (length l).
Proof.
  induction 1 as [|a l Ha _ IH]; [reflexivity|].
  rewrite searchsorted_cons. destruct (Rlt_dec a v); [|lra].
  rewrite IH. simpl length. lia.
Qed.

Lemma spaced_tail (a : R) (l : list R) : spaced (a :: l) -> spaced l.
Proof. destruct l as [|b l]; simpl; tauto. Qed.

Lemma spaced_above_head (a : R) (l : list R) :
  spaced (a :: l) -> Forall (fun x => a + 1e-9 <= x) l.
Proof.
  revert a. induction l as [|b l IH]; intros a Hsp; constructor.
  - simpl in Hsp. tauto.
  - apply (Forall_impl _ (P := fun x => b + 1e-9 <= x)).
    + intros x Hx. simpl in Hsp. lra.
    + apply IH. exact (spaced_tail a _ Hsp).
Qed.

Lemma spaced_nth (l : list R) (i : nat) :
  spaced l -> (S i < length l)%nat -> nth i l 0 + 1e-9 <= nth (S i) l 0.
Proof.
  revert i. induction l as [|a l IH]; intros i Hsp Hi; [simpl in Hi; lia|].
  destruct i as [|i].
  - destruct l as [|b l]; [simpl in Hi; lia|]. simpl in *. tauto.
  - apply IH; [exact (spaced_tail a l Hsp) | simpl in Hi; lia].
Qed.

Lemma spaced_from_first (l : list R) :
  spaced l -> Forall (fun x => nth 0 l 0 <= x) l.
Proof.
  destruct l as [|a l]; intros Hsp; constructor; simpl; [lra|].
  apply (Forall_impl _ (P := fun x => a + 1e-9 <= x)); [intros; lra|].
  now apply spaced_above_head.
Qed.

Lemma spaced_to_last (l : list R) :
  spaced l -> Forall (fun x => x <= last l 0) l.
Proof.
  induction l as [|a l IH]; intros Hsp; constructor.
  - destruct l as [|b l]; [simpl; lra|].
    pose proof (IH (spaced_tail a _ Hsp)) as Hall.
    inversion Hall as [|? ? Hb _]. simpl in Hsp.
    change (last (a :: b :: l) 0) with (last (b :: l) 0). lra.
  - destruct l as [|b l]; [constructor|].
    exact (IH (spaced_tail a _ Hsp)).
Qed.

Lemma last_is_nth (l : list R) :
  l <> [] -> last l 0 = nth (length l - 1) l 0.
Proof.
  induction l as [|a l IH]; intros Hne; [congruence|].
  destruct l as [|b l]; [reflexivity|].
  change (last (a :: b :: l) 0) with (last (b :: l) 0).
  rewrite IH by discriminate. simpl. rewrite Nat.sub_0_r. reflexivity.
Qed.

Lemma searchsorted_nth (l : list R) (j : nat) :
  spaced l -> (j < length l)%nat -> searchsorted l (nth j l 0) = Z.of_nat j.
Proof.
  revert j. induction l as [|a l IH]; intros j Hsp Hj; [simpl in Hj; lia|].
  pose proof (spaced_above_head a l Hsp) as Habove.
  rewrite searchsorted_cons. destruct j as [|j]; simpl nth.
  - destruct (Rlt_dec a a); [lra|]. apply searchsorted_none.
    apply (Forall_impl _ (P := fun x => a + 1e-9 <= x)); [intros; lra|].
    exact Habove.
  - simpl in Hj.
    assert (Hin : In (nth j l 0) l) by (apply nth_In; lia).
    rewrite Forall_forall in Habove. specialize (Habove _ Hin).
    destruct (Rlt_dec a (nth j l 0)); [|lra].
    rewrite IH by (try exact (spaced_tail a l Hsp); lia). lia.
Qed.

Section Coordinates.
Variable coords : list R.
Hypothesis coords_spaced : spaced coords.
Hypothesis coords_two : (2 <= length coords)%nat.

Local Abbreviation len := (Z.of_nat (length coords)).

(** A coordinate of the array resolves to its own index. *)
Lemma fractional_index_node (j : nat) :
  (j < length coords)%nat ->
  fractional_index coords (nth j coords 0) = IZR (Z.of_nat j).
Proof using coords_spaced coords_two.
  intros Hj. unfold fractional_index.
  rewrite searchsorted_nth by assumption. cbv zeta.
  destruct j as [|j].
  - replace (clamp (Z.of_nat 0 - 1) 0 (len - 2)) with 0%Z
      by (unfold clamp; lia).
    simpl. unfold Rdiv. rewrite Rminus_diag. lra.
  - replace (clamp (Z.of_nat (S j) - 1) 0 (len - 2)) with (Z.of_nat j)
      by (unfold clamp; lia).
    rewrite Nat2Z.id.
    replace (Z.to_nat (Z.of_nat j + 1)) with (S j) by lia.
    pose proof (spaced_nth coords j coords_spaced Hj) as Hgap.
    rewrite Rmax_left by lra.
    rewrite Nat2Z.inj_succ, succ_IZR. field. lra.
Qed.

Lemma fractional_index_below (c : R) :
  c <= nth 0 coords 0 -> fractional_index coords c <= 0.
Proof using coords_spaced coords_two.
  intros Hc. unfold fractional_index.
  rewrite searchsorted_none.
  2:{ apply (Forall_impl _ (P := fun x => nth 0 coords 0 <= x));
        [intros; lra | now apply spaced_from_first]. }
  cbv zeta.
  replace (clamp (0 - 1) 0 (len - 2)) with 0%Z by (unfold clamp; lia).
  simpl Z.to_nat.
  set (width := Rmax (nth (Pos.to_nat 1) coords 0 - nth 0 coords 0) 1e-9).
  assert (Hwidth : 0 < / width).
  { apply Rinv_0_lt_compat. unfold width.
    pose proof (Rmax_r (nth (Pos.to_nat 1) coords 0 - nth 0 coords 0) 1e-9).
    lra. }
  unfold Rdiv. nra.
Qed.

Lemma fractional_index_above (c : R) :
  last coords 0 <= c -> IZR (len - 1) <= fractional_index coords c.
Proof using coords_spaced coords_two.
  intros Hc.
  assert (Hne : coords <> []) by (intros ->; simpl in coords_two; lia).
  pose proof (last_is_nth coords Hne) as Hlast.
  destruct (Req_dec c (last coords 0)) as [->|Hneq].
  - rewrite Hlast, fractional_index_node by lia.
    right. f_equal. lia.
  - unfold fractional_index.
    rewrite searchsorted_all.
    2:{ apply (Forall_impl _ (P := fun x => x <= last coords 0));
          [intros; lra | now apply spaced_to_last]. }
    cbv zeta.
    replace (clamp (len - 1) 0 (len - 2)) with (len - 2)%Z
      by (unfold clamp; lia).
    replace (Z.to_nat (len - 2)) with (length coords - 2)%nat by lia.
    replace (Z.to_nat (len - 2 + 1)) with (S (length coords - 2)) by lia.
    pose proof (spaced_nth coords (length coords - 2) coords_spaced
                  ltac:(lia)) as Hgap.
    replace (S (length coords - 2)) with (length coords - 1)%nat in * by lia.
    rewrite <- Hlast in *.
    rewrite Rmax_left by lra.
    set (lo := nth (length coords - 2) coords 0) in *.
    assert (Hratio : 1 <= (c - lo) / (last coords 0 - lo)).
    { apply (Rmult_le_reg_r (last coords 0 - lo)); [lra|].
      unfold Rdiv. rewrite Rmult_assoc, Rinv_l by lra. lra. }
    replace (len - 1)%Z with (len - 2 + 1)%Z by lia.
    rewrite plus_IZR. lra.
Qed.

Lemma nearest_coord_cases (c : R) :
  (c < nth 0 coords 0 /\ nearest_coord coords c = nth 0 coords 0)
  \/ (last coords 0 < c /\ nearest_coord coords c = last coords 0)
  \/ (nth 0 coords 0 <= c <= last coords 0 /\ nearest_coord coords c = c).
Proof using coords_spaced coords_two.
  assert (Hne : coords <> []) by (intros ->; simpl in coords_two; lia).
  assert (Hends : nth 0 coords 0 <= last coords 0).
  { pose proof (spaced_to_last coords coords_spaced) as Hall.
    rewrite Forall_forall in Hall. apply Hall. apply nth_In. lia. }
  unfold nearest_coord, Rmax, Rmin.
  destruct (Rle_dec (last coords 0) c); destruct (Rle_dec _ _); lra.
Qed.

(** Outside the coordinates the weighting along the axis is the one at the
    nearest end coordinate. *)
Lemma lerp_fractional_index_nearest (f : Z -> R) (c : R) :
  lerp len f (fractional_index coords c)
  = lerp len f (fractional_index coords (nearest_coord coords c)).
Proof using coords_spaced coords_two.
  assert (Hne : coords <> []) by (intros ->; simpl in coords_two; lia).
  assert (Hm : (1 <= len)%Z) by lia.
  destruct (nearest_coord_cases c) as [[Hc ->]|[[Hc ->]|[_ ->]]].
  - rewrite (lerp_at_or_below len f _ Hm (fractional_index_below c ltac:(lra))).
    rewrite (fractional_index_node 0) by lia.
    symmetry. apply lerp_vertex; lia.
  - rewrite (lerp_at_or_above len f _ Hm (fractional_index_above c ltac:(lra))).
    rewrite (last_is_nth coords Hne), fractional_index_node by lia.
    replace (Z.of_nat (length coords - 1)) with (len - 1)%Z by lia.
    symmetry. apply lerp_vertex; lia.
  - reflexivity.
Qed.
End Coordinates.

(** ** Sampling a dataset *)

Lemma getitem_short {A : Type} (l : list A) (i : Z) :
  (Z.of_nat (length l) <= i)%Z -> getitem l i = Raise IndexError.
Proof.
  intros Hi. unfold getitem.
  destruct (Z.ltb_spec i 0); [lia|].
  destruct (Z.leb_spec 0 i); [|reflexivity].
  destruct (Z.ltb_spec i (Z.of_nat (length l))); [lia | reflexivity].
Qed.

(** On a readable dataset the sampler is the bilinear sampler of the time
    slice at the two fractional indices. *)
Lemma sample_from_dataset_readable (ds : Dataset) (varname : string)
  (tindex : Z) (arr2d : Array2) (lat lon : R) :
  readable ds varname tindex arr2d ->
  sample_from_dataset ds varname lat lon tindex
  = bilinear_interpolate arr2d
      (fractional_index (lons ds) lon) (fractional_index (lats ds) lat).
Proof.
  intros ((var & Hvar & Hslice) & _ & _ & _ & Hlats & Hlons).
  unfold sample_from_dataset. rewrite Hvar. cbn [bind].
  rewrite Hslice. cbn [bind]. cbv zeta.
  pose proof (searchsorted_range (lons ds) lon) as Hsx.
  pose proof (searchsorted_range (lats ds) lat) as Hsy.
  set (ix := clamp (searchsorted (lons ds) lon - 1) 0
               (Z.of_nat (length (lons ds)) - 2)).
  set (iy := clamp (searchsorted (lats ds) lat - 1) 0
               (Z.of_nat (length (lats ds)) - 2)).
  assert (Hix : (0 <= ix <= Z.of_nat (length (lons ds)) - 2)%Z)
    by (unfold ix, clamp; lia).
  assert (Hiy : (0 <= iy <= Z.of_nat (length (lats ds)) - 2)%Z)
    by (unfold iy, clamp; lia).
  rewrite (getitem_in_range (lons ds) ix 0) by lia. cbn [bind].
  rewrite (getitem_in_range (lons ds) (ix + 1) 0) by lia. cbn [bind].
  rewrite (getitem_in_range (lats ds) iy 0) by lia. cbn [bind].
  rewrite (getitem_in_range (lats ds) (iy + 1) 0) by lia. cbn [bind].
  reflexivity.
Qed.

(** X13. On a dataset readable for "u" and "v" the provider never falls
    back: for every position both samples succeed, [current_uv] returns
    exactly them, whatever the simulation time, and each lies between any
    two bounds that enclose the cells of its time slice. *)
Theorem current_uv_from_dataset (self : FieldProvider) (ds : Dataset)
  (arr_u arr_v : Array2) :
  ds_ecco self = Some ds ->
  readable ds "u" (tidx_ecco self) arr_u ->
  readable ds "v" (tidx_ecco self) arr_v ->
  forall lat lon tsec : R,
    exists u v,
      sample_from_dataset ds "u" lat lon (tidx_ecco self) = Ok u
      /\ sample_from_dataset ds "v" lat lon (tidx_ecco self) = Ok v
      /\ current_uv self lat lon tsec = (u, v)
      /\ (forall lo hi,
             Forall (Forall (fun c => lo <= c <= hi)) arr_u -> lo <= u <= hi)
      /\ (forall lo hi,
             Forall (Forall (fun c => lo <= c <= hi)) arr_v -> lo <= v <= hi).
Proof.
  intros Hds Hu Hv lat lon tsec.
  pose proof (sample_from_dataset_readable ds "u" _ arr_u lat lon Hu) as Hsu.
  pose proof (sample_from_dataset_readable ds "v" _ arr_v lat lon Hv) as Hsv.
  assert (Hgu : grid arr_u) by (destruct Hu as (_ & Hg & _); exact Hg).
  assert (Hgv : grid arr_v) by (destruct Hv as (_ & Hg & _); exact Hg).
  rewrite (bilinear_interpolate_lerp arr_u _ _ Hgu) in Hsu.
  rewrite (bilinear_interpolate_lerp arr_v _ _ Hgv) in Hsv.
  eexists. eexists. split; [exact Hsu|]. split; [exact Hsv|]. split.
  - unfold current_uv. rewrite Hds, Hsu. cbn [bind]. rewrite Hsv. reflexivity.
  - split; intros lo hi Hall.
    + destruct (bilinear_interpolate_range arr_u lo hi
                  (fractional_index (lons ds) lon)
                  (fractional_index (lats ds) lat) Hgu Hall) as (w & Hw & Hb).
      rewrite (bilinear_interpolate_lerp arr_u _ _ Hgu) in Hw.
      injection Hw as <-. exact Hb.
    + destruct (bilinear_interpolate_range arr_v lo hi
                  (fractional_index (lons ds) lon)
                  (fractional_index (lats ds) lat) Hgv Hall) as (w & Hw & Hb).
      rewrite (bilinear_interpolate_lerp arr_v _ _ Hgv) in Hw.
      injection Hw as <-. exact Hb.
Qed.

Lemma dataset22_readable_u : readable dataset22 "u" 0 grid22.
Proof.
  unfold readable. split; [exists [grid22]; split; reflexivity|].
  split; [exact grid22_grid|]. repeat split; simpl; lia.
Qed.

Lemma dataset22_readable_v : readable dataset22 "v" 0 grid22.
Proof.
  unfold readable. split; [exists [grid22]; split; reflexivity|].
  split; [exact grid22_grid|]. repeat split; simpl; lia.
Qed.

Lemma dataset22_spaced : spaced (lats dataset22) /\ spaced (lons dataset22).
Proof. simpl. repeat split; lra. Qed.

Lemma current_uv_from_dataset_witness :
  exists u v,
    current_uv (FieldProvider_init (Some dataset22) None) 23.6 58.5 1200
    = (u, v)
    /\ 1 <= u <= 4 /\ 1 <= v <= 4.
Proof.
  destruct (current_uv_from_dataset (FieldProvider_init (Some dataset22) None)
              dataset22 grid22 grid22 eq_refl dataset22_readable_u
              dataset22_readable_v 23.6 58.5 1200)
    as (u & v & _ & _ & Huv & Hu & Hv).
  exists u, v. split; [exact Huv|]. split.
  - exact (Hu 1 4 grid22_cells).
  - exact (Hv 1 4 grid22_cells).
Defined.

(** X14. On a readable dataset whose coordinates ascend by at least 1e-9,
    sampling at latitude number [j] and longitude number [i] of the
    coordinate arrays returns the stored cell [j, i] of the time slice. *)
Theorem sample_from_dataset_node (ds : Dataset) (varname : string)
  (tindex : Z) (arr2d : Array2) (j i : nat) :
  readable ds varname tindex arr2d ->
  spaced (lats ds) -> spaced (lons ds) ->
  (j < length (lats ds))%nat -> (i < length (lons ds))%nat ->
  sample_from_dataset ds varname (nth j (lats ds) 0) (nth i (lons ds) 0) tindex
  = getitem2 arr2d (Z.of_nat j) (Z.of_nat i).
Proof.
  intros Hread Hslat Hslon Hj Hi.
  pose proof Hread as (_ & Hgrid & Hny & Hnx & Hlats & Hlons).
  pose proof Hgrid as (Hrect & Hy1 & Hx1).
  rewrite (sample_from_dataset_readable ds varname tindex arr2d _ _ Hread).
  rewrite (fractional_index_node (lons ds) Hslon Hlons i Hi).
  rewrite (fractional_index_node (lats ds) Hslat Hlats j Hj).
  rewrite bilinear_interpolate_lerp by exact Hgrid.
  rewrite (lerp_vertex (shape0 arr2d) _ Hy1 (Z.of_nat j)) by lia.
  rewrite (lerp_vertex (shape1 arr2d) _ Hx1 (Z.of_nat i)) by lia.
  symmetry. apply getitem2_in_range; [exact Hrect | lia | lia].
Qed.

Lemma sample_from_dataset_node_witness :
  sample_from_dataset dataset22 "u" (nth 1 (lats dataset22) 0)
    (nth 0 (lons dataset22) 0) 0
  = getitem2 grid22 (Z.of_nat 1) (Z.of_nat 0).
Proof.
  apply (sample_from_dataset_node dataset22 "u" 0 grid22 1 0
           dataset22_readable_u (proj1 dataset22_spaced)
           (proj2 dataset22_spaced)); simpl; lia.
Defined.

(** X15. On such a dataset a query outside the coordinate box is answered
    as the query at the nearest point of the box: each coordinate below
    the first or above the last entry of its array counts as that entry
    (edge-value extrapolation in latitude and longitude). *)
Theorem sample_from_dataset_edge (ds : Dataset) (varname : string)
  (tindex : Z) (arr2d : Array2) :
  readable ds varname tindex arr2d ->
  spaced (lats ds) -> spaced (lons ds) ->
  forall lat lon : R,
    sample_from_dataset ds varname lat lon tindex
    = sample_from_dataset ds varname
        (nearest_coord (lats ds) lat) (nearest_coord (lons ds) lon) tindex.
Proof.
  intros Hread Hslat Hslon lat lon.
  pose proof Hread as (_ & Hgrid & Hny & Hnx & Hlats & Hlons).
  rewrite !(sample_from_dataset_readable ds varname tindex arr2d _ _ Hread).
  rewrite !bilinear_interpolate_lerp by exact Hgrid.
  rewrite Hny, Hnx. f_equal.
  rewrite (lerp_fractional_index_nearest (lats ds) Hslat Hlats _ lat).
  unfold lerp at 1 3.
  rewrite (lerp_fractional_index_nearest (lons ds) Hslon Hlons
             (fun i => cell arr2d
                         (lower (Z.of_nat (length (lats ds)))
                            (fractional_index (lats ds)
                               (nearest_coord (lats ds) lat))) i) lon).
  rewrite (lerp_fractional_index_nearest (lons ds) Hslon Hlons
             (fun i => cell arr2d
                         (upper (Z.of_nat (length (lats ds)))
                            (fractional_index (lats ds)
                               (nearest_coord (lats ds) lat))) i) lon).
  reflexivity.
Qed.

Lemma sample_from_dataset_edge_witness :
  sample_from_dataset dataset22 "u" 30 50 0
  = sample_from_dataset dataset22 "u"
      (nearest_coord (lats dataset22) 30) (nearest_coord (lons dataset22) 50) 0.
Proof.
  exact (sample_from_dataset_edge dataset22 "u" 0 grid22 dataset22_readable_u
           (proj1 dataset22_spaced) (proj2 dataset22_spaced) 30 50).
Defined.

(** North-west of [dataset22] the sample is the cell of its last latitude
    and first longitude. *)
Example sample_from_dataset_corner :
  sample_from_dataset dataset22 "u" 30 50 0 = Ok 3.
Proof.
  rewrite (sample_from_dataset_readable dataset22 "u" 0 grid22 30 50
             dataset22_readable_u).
  rewrite bilinear_interpolate_lerp by exact grid22_grid.
  change (shape0 grid22) with (Z.of_nat (length (lats dataset22))).
  change (shape1 grid22) with (Z.of_nat (length (lons dataset22))).
  assert (Hlat : IZR (Z.of_nat (length (lats dataset22)) - 1)
                 <= fractional_index (lats dataset22) 30).
  { apply fractional_index_above;
      [exact (proj1 dataset22_spaced) | simpl; lia | simpl; lra]. }
  assert (Hlon : fractional_index (lons dataset22) 50 <= 0).
  { apply fractional_index_below;
      [exact (proj2 dataset22_spaced) | simpl; lia | simpl; lra]. }
  rewrite (lerp_at_or_above (Z.of_nat (length (lats dataset22))) _ _
             ltac:(simpl; lia) Hlat).
  rewrite (lerp_at_or_below (Z.of_nat (length (lons dataset22))) _ _
             ltac:(simpl; lia) Hlon).
  reflexivity.
Qed.

(** ** Datasets the sampler cannot read *)

Lemma sample_from_dataset_short_lons (ds : Dataset) (varname : string)
  (lat lon : R) (tindex : Z) :
  (length (lons ds) < 2)%nat ->
  exists e, sample_from_dataset ds varname lat lon tindex = Raise e.
Proof.
  intros Hshort. unfold sample_from_dataset.
  destruct (variables ds varname) as [var|]; [|eexists; reflexivity].
  cbn [bind]. destruct (getitem var tindex) as [slice|e];
    [|eexists; reflexivity].
  cbn [bind]. cbv zeta.
  destruct (lons ds) as [|a [|b rest]]; [| |simpl in Hshort; lia].
  - eexists. reflexivity.
  - replace (clamp (searchsorted [a] lon - 1) 0
               (Z.of_nat (length [a]) - 2)) with 0%Z
      by (unfold clamp; simpl; lia).
    eexists. reflexivity.
Qed.

Lemma sample_from_dataset_short_lats (ds : Dataset) (varname : string)
  (lat lon : R) (tindex : Z) :
  (length (lats ds) < 2)%nat ->
  exists e, sample_from_dataset ds varname lat lon tindex = Raise e.
Proof.
  intros Hshort. unfold sample_from_dataset.
  destruct (variables ds varname) as [var|]; [|eexists; reflexivity].
  cbn [bind]. destruct (getitem var tindex) as [slice|e];
    [|eexists; reflexivity].
  cbn [bind]. cbv zeta.
  destruct (getitem (lons ds) _) as [lon_lo|e]; [|eexists; reflexivity].
  cbn [bind].
  destruct (getitem (lons ds) _) as [lon_hi|e]; [|eexists; reflexivity].
  cbn [bind].
  destruct (lats ds) as [|a [|b rest]]; [| |simpl in Hshort; lia].
  - eexists. reflexivity.
  - replace (clamp (searchsorted [a] lat - 1) 0
               (Z.of_nat (length [a]) - 2)) with 0%Z
      by (unfold clamp; simpl; lia).
    eexists. reflexivity.
Qed.

(** X16. A dataset is used only if the sampler can read it: when the
    variable is missing the sampler raises [KeyError], when the time index
    is out of range or a coordinate array has fewer than two entries it
    raises; and in each of these cases the provider answers the synthetic
    current for every position and time instead. *)
Theorem unreadable_dataset_falls_back (self : FieldProvider) (ds : Dataset)
  (lat lon tsec : R) :
  ds_ecco self = Some ds ->
  (variables ds "u" = None ->
   sample_from_dataset ds "u" lat lon (tidx_ecco self) = Raise KeyError)
  /\
  (variables ds "u" = None
   \/ (exists var, variables ds "u" = Some var
                   /\ (Z.of_nat (length var) <= tidx_ecco self)%Z)
   \/ (length (lats ds) < 2)%nat
   \/ (length (lons ds) < 2)%nat ->
   (exists e, sample_from_dataset ds "u" lat lon (tidx_ecco self) = Raise e)
   /\ current_uv self lat lon tsec = uv_current SYN lat lon tsec).
Proof.
  intros Hds. split.
  - intros Hmissing. unfold sample_from_dataset. rewrite Hmissing. reflexivity.
  - intros Hcase.
    assert (Hraise : exists e,
               sample_from_dataset ds "u" lat lon (tidx_ecco self) = Raise e).
    { destruct Hcase as [Hmissing|[(var & Hvar & Hlen)|[Hlats|Hlons]]].
      - exists KeyError. unfold sample_from_dataset. rewrite Hmissing.
        reflexivity.
      - exists IndexError. unfold sample_from_dataset. rewrite Hvar.
        cbn [bind]. rewrite getitem_short by exact Hlen. reflexivity.
      - now apply sample_from_dataset_short_lats.
      - now apply sample_from_dataset_short_lons. }
    split; [exact Hraise|].
    destruct Hraise as [e He]. unfold current_uv. rewrite Hds, He.
    reflexivity.
Qed.

Lemma unreadable_dataset_falls_back_witness :
  current_uv (FieldProvider_init (Some dataset_one_lat) None) 23.6 58.5 0
  = uv_current SYN 23.6 58.5 0.
Proof.
  refine (proj2 (proj2 (unreadable_dataset_falls_back
                          (FieldProvider_init (Some dataset_one_lat) None)
                          dataset_one_lat 23.6 58.5 0 eq_refl) _)).
  right. right. left. simpl. lia.
Defined.

(** ** Sampled centroids *)

Lemma np_sum_between (l : list R) (lo hi : R) :
  Forall (fun x => lo <= x <= hi) l ->
  lo * INR (length l) <= np_sum l <= hi * INR (length l).
Proof.
  induction 1 as [|x l Hx _ IH].
  - simpl. lra.
  - change (np_sum (x :: l)) with (x + np_sum l).
    cbn [length]. rewrite S_INR. lra.
Qed.

(** The mean of a non-empty array lies between any two bounds of its
    cells. *)
Lemma np_mean_between (l : list R) (lo hi : R) :
  l <> [] -> Forall (fun x => lo <= x <= hi) l -> lo <= np_mean l <= hi.
Proof.
  intros Hne Hall. pose proof (np_sum_between l lo hi Hall) as Hsum.
  assert (Hlen : 0 < INR (length l)).
  { apply lt_0_INR. destruct l; [congruence | simpl; lia]. }
  unfold np_mean. split.
  - apply (Rmult_le_reg_r (INR (length l))); [exact Hlen|].
    unfold Rdiv. rewrite Rmult_assoc, Rinv_l by lra. lra.
  - apply (Rmult_le_reg_r (INR (length l))); [exact Hlen|].
    unfold Rdiv. rewrite Rmult_assoc, Rinv_l by lra. lra.
Qed.

Section Centroids.
Variable FIELDS : FieldProvider.
Variables (windage diff_m2s dt_sec : R).

Lemma step_samples_own (n k : nat) (st st' : Loop.t) :
  step FIELDS n windage diff_m2s dt_sec k st = Ok st' ->
  (Loop.sample_accum st', Loop.mean_track st')
  = record_sample (Loop.lat st') (Loop.lon st')
      (Loop.sample_accum st) (Loop.mean_track st).
Proof.
  open_step. destruct (meters_to_deg_lon _ _) as [dlon|e]; simpl;
    [|discriminate].
  destruct (record_sample _ _ _ _) as [acc track] eqn:Hrec.
  intros [= <-]. simpl. symmetry. exact Hrec.
Qed.

Lemma step_track_in_Domain (k : nat) (st st' : Loop.t) :
  length (Loop.lat st) = 1%nat -> length (Loop.lon st) = 1%nat ->
  step FIELDS 1 windage diff_m2s dt_sec k st = Ok st' ->
  Forall in_Domain (Loop.mean_track st) ->
  Forall in_Domain (Loop.mean_track st').
Proof.
  intros Hlat Hlon Hstep Htrack.
  pose proof (step_samples_own 1 k st st' Hstep) as Hrec.
  destruct (step_in_Domain FIELDS 1 windage diff_m2s dt_sec k st st' Hstep)
    as [Hla Hlo].
  destruct (step_shape FIELDS 1 windage diff_m2s dt_sec k st st' Hlat Hlon
              eq_refl Hstep) as [Hlat' Hlon'].
  unfold record_sample in Hrec.
  destruct (SAMPLE_EVERY_STEPS <=? Loop.sample_accum st + 1)%nat;
    injection Hrec as _ ->; [|exact Htrack].
  apply Forall_app. split; [exact Htrack|]. constructor; [|constructor].
  split; simpl.
  - apply np_mean_between; [|exact Hla].
    intros Hnil. rewrite Hnil in Hlat'. discriminate.
  - apply np_mean_between; [|exact Hlo].
    intros Hnil. rewrite Hnil in Hlon'. discriminate.
Qed.

Lemma run_steps_track_in_Domain (ks : list nat) (st st' : Loop.t) :
  length (Loop.lat st) = 1%nat -> length (Loop.lon st) = 1%nat ->
  run_steps FIELDS 1 windage diff_m2s dt_sec ks st = Ok st' ->
  Forall in_Domain (Loop.mean_track st) ->
  Forall in_Domain (Loop.mean_track st').
Proof.
  revert st. induction ks as [|k ks IH]; intros st Hlat Hlon Hrun Htrack.
  - injection Hrun as <-. exact Htrack.
  - simpl in Hrun.
    destruct (step FIELDS 1 windage diff_m2s dt_sec k st) as [st1|e] eqn:Hst1;
      [|discriminate].
    simpl in Hrun.
    destruct (step_shape FIELDS 1 windage diff_m2s dt_sec k st st1 Hlat Hlon
                eq_refl Hst1) as [Hlat1 Hlon1].
    apply (IH st1 Hlat1 Hlon1 Hrun).
    exact (step_track_in_Domain k st st1 Hlat Hlon Hst1 Htrack).
Qed.
End Centroids.

(** X17. Every centroid the loop samples lies in the Domain: the mean
    track of a returned run of at least SAMPLE_EVERY_STEPS steps has all
    its points in the Domain (below that it is the release point, wherever
    that is). *)
Theorem mean_track_in_Domain (default_rng : N -> Generator)
  (FIELDS : FieldProvider) (now lat0 lon0 hours : R) (n : Z)
  (windage diff_m2s : R) (backward : bool) (seed : option N) (r : Result) :
  simulate_particles default_rng FIELDS now lat0 lon0 hours n windage diff_m2s
    backward seed = Ok r ->
  (Z.of_nat SAMPLE_EVERY_STEPS <= steps_of hours)%Z ->
  Forall in_Domain (mean_track r).
Proof.
  intros Hrun Hsteps. unfold SAMPLE_EVERY_STEPS in Hsteps.
  destruct (Z.ltb_spec n 0) as [Hneg|Hpos].
  { rewrite simulate_particles_negative in Hrun by exact Hneg. discriminate. }
  destruct (Z.eq_dec n 1) as [->|Hmany].
  2:{ rewrite simulate_particles_TypeError in Hrun by (assumption || lia).
      discriminate. }
  unfold simulate_particles in Hrun.
  rewrite (initial_state_nonneg default_rng now lat0 lon0 1 seed Hpos) in Hrun.
  cbn [bind] in Hrun.
  match type of Hrun with
  | context [run_steps ?F ?m ?w ?d ?dt ?ks ?st0] =>
      destruct (run_steps F m w d dt ks st0) as [st|e] eqn:Hloop;
        [|discriminate]
  end.
  cbn [bind] in Hrun. injection Hrun as <-.
  pose proof (run_steps_count _ _ _ _ _ _ _ _ Hloop) as Hcount.
  cbn [Loop.sample_accum Loop.mean_track length] in Hcount.
  unfold SAMPLE_EVERY_STEPS in Hcount. rewrite length_seq in Hcount.
  destruct (Hcount ltac:(lia)) as [Hacc Hsum].
  apply run_steps_track_in_Domain in Hloop;
    [|reflexivity|reflexivity|constructor].
  unfold make_result. cbn [mean_track].
  destruct (Loop.mean_track st) as [|p track]; [|exact Hloop].
  exfalso. cbn [length] in Hsum. lia.
Qed.

Lemma mean_track_in_Domain_witness :
  exists r,
    simulate_particles test_rng NO_DATA 0 23.6 58.5 1 1 0.02 0.5 false
      (Some 42%N) = Ok r
    /\ Forall in_Domain (mean_track r).
Proof.
  destruct (simulate_particles_one_particle test_rng NO_DATA 0 23.6 58.5 1 1
              0.02 0.5 false (Some 42%N) eq_refl) as [r Hr].
  exists r. split; [exact Hr|].
  apply (mean_track_in_Domain test_rng NO_DATA 0 23.6 58.5 1 1 0.02 0.5 false
           (Some 42%N) r Hr).
  rewrite (steps_of_ticks 1 6) by (rewrite Rabs_pos_eq; lra).
  unfold SAMPLE_EVERY_STEPS. lia.
Defined.

(** ** The generator along a run *)

Lemma step_rng (FIELDS : FieldProvider) (n : nat)
  (windage diff_m2s dt_sec : R) (k : nat) (st st' : Loop.t) :
  step FIELDS n windage diff_m2s dt_sec k st = Ok st' ->
  deviates (Loop.rng st') = deviates (Loop.rng st)
  /\ cursor (Loop.rng st') = (cursor (Loop.rng st) + 2 * n)%nat.
Proof.
  open_step. destruct (meters_to_deg_lon _ _) as [dlon|e]; simpl;
    [|discriminate].
  destruct (record_sample _ _ _ _) as [acc track]. intros [= <-].
  simpl. split; [reflexivity | lia].
Qed.

Lemma run_steps_rng (FIELDS : FieldProvider) (n : nat)
  (windage diff_m2s dt_sec : R) (ks : list nat) (st st' : Loop.t) :
  run_steps FIELDS n windage diff_m2s dt_sec ks st = Ok st' ->
  deviates (Loop.rng st') = deviates (Loop.rng st)
  /\ cursor (Loop.rng st') = (cursor (Loop.rng st) + 2 * n * length ks)%nat.
Proof.
  revert st. induction ks as [|k ks IH]; intros st Hrun.
  - injection Hrun as <-. split; [reflexivity | simpl; lia].
  - simpl in Hrun.
    destruct (step FIELDS n windage diff_m2s dt_sec k st) as [st1|e] eqn:Hst1;
      [|discriminate].
    simpl in Hrun. destruct (step_rng _ _ _ _ _ _ _ _ Hst1) as [Hd1 Hc1].
    destruct (IH st1 Hrun) as [Hd Hc].
    split; [congruence|]. rewrite Hc, Hc1. cbn [length]. lia.
Qed.

(** X18. One generator drives a run and no deviate is used twice: after
    the initial cloud and [j] completed steps the loop holds the stream
    the seed selected, advanced by 2n deviates for the jitter and 2n for
    each step. *)
Theorem generator_advances (default_rng : N -> Generator)
  (FIELDS : FieldProvider) (now lat0 lon0 : R) (n : Z)
  (windage diff_m2s : R) (backward : bool) (seed : option N)
  (j : nat) (st : Loop.t) :
  state_after default_rng FIELDS now lat0 lon0 n windage diff_m2s backward
    seed j = Ok st ->
  let g := seed_rng default_rng now seed in
  deviates (Loop.rng st) = deviates g
  /\ cursor (Loop.rng st) = (cursor g + 2 * Z.to_nat n * (j + 1))%nat.
Proof.
  intros Hafter g. unfold state_after in Hafter.
  destruct (Z.ltb_spec n 0) as [Hneg|Hpos].
  { rewrite initial_state_negative in Hafter by exact Hneg. discriminate. }
  rewrite (initial_state_nonneg default_rng now lat0 lon0 n seed Hpos)
    in Hafter.
  cbn [bind] in Hafter.
  destruct (run_steps_rng _ _ _ _ _ _ _ _ Hafter) as [Hd Hc].
  rewrite length_seq in Hc. cbn [Loop.rng normal snd deviates cursor] in Hd, Hc.
  fold g in Hd, Hc. split; [exact Hd|]. rewrite Hc. lia.
Qed.

Lemma generator_advances_witness :
  exists st,
    state_after test_rng NO_DATA 0 23.6 58.5 1 0.02 0.5 false (Some 42%N) 6
    = Ok st
    /\ cursor (Loop.rng st) = 14%nat.
Proof.
  destruct (state_after_one_particle test_rng NO_DATA 0 23.6 58.5 1 0.02 0.5
              false (Some 42%N) 6 eq_refl) as (st & Hst & _).
  exists st. split; [exact Hst|].
  exact (proj2 (generator_advances test_rng NO_DATA 0 23.6 58.5 1 0.02 0.5
                  false (Some 42%N) 6 st Hst)).
Defined.
